(** * The pivot-table aggregation of [plot_simulated_data_tmrca_mu.py]

    A shallow embedding of [create_pivot_table], of the column derivations
    of the CSV readers that feed it and of the two submission scripts, with
    the properties of the summary table the function returns.

    Numbers.  The script computes in binary64 floats.  It is embedded
    twice.

    [create_pivot_table] computes with real numbers: a table cell is a real
    number, and rounding and overflow are abstracted away.  What the reals
    do not have is the result of a division by zero, which numpy does not
    refuse but turns into [inf] or [nan] (with a warning).  A computed value
    therefore has type [num = option R]: [Some x] is the finite number [x],
    [None] is a value that is not a finite number.  This embedding carries
    the properties of the structure of the table (keys, order, groups, the
    filter as a set of rows) and of the formulas.

    [Flt.create_pivot_table] is the same function over the operations of
    binary64 and the reductions of numpy and pandas, which it takes as
    parameters and of which it assumes nothing.  It carries the properties
    that must hold of the floats as they are: which reduction fills which
    cell, and which rows the ratio test lets through.

    The columns of the input table hold finite numbers (a missing cell,
    pandas' NaN, is outside this data model). *)

From Stdlib Require Import Ascii String.
From Stdlib Require Import Reals Lra Lia List ZArith Bool Arith.
From Stdlib Require Import Sorted Permutation.
From Stdlib Require DecimalString DecimalNat.
Import ListNotations.

Open Scope R_scope.

(** ** Numbers *)

Definition num := option R.

Definition Reqb (x y : R) : bool := if Req_EM_T x y then true else false.
Definition Rleb (x y : R) : bool := if Rle_dec x y then true else false.

(** [a / b] on floats: a zero divisor gives [inf] or [nan]. *)
Definition num_div (a b : num) : num :=
  match a, b with
  | Some x, Some y => if Req_EM_T y 0 then None else Some (x / y)
  | _, _ => None
  end.

Definition num_sub (a b : num) : num :=
  match a, b with
  | Some x, Some y => Some (x - y)
  | _, _ => None
  end.

(** [a == b] on floats: [nan] equals nothing, and [inf] no finite number. *)
Definition num_eqb (a : num) (b : R) : bool :=
  match a with
  | Some x => Reqb x b
  | None => false
  end.

(** ** numpy *)

Module np.

(** [ndarray.sort]: ascending order. *)
Fixpoint insert (x : R) (l : list R) : list R :=
  match l with
  | [] => [x]
  | y :: t => if Rleb x y then x :: y :: t else y :: insert x t
  end.

Fixpoint sort (l : list R) : list R :=
  match l with
  | [] => []
  | x :: t => insert x (sort t)
  end.

(** The mask [ar[1:] != ar[:-1]] of [np.unique], walked along the sorted
    array: [prev] is the entry before [l]. *)
Fixpoint drop_repeats (prev : R) (l : list R) : list R :=
  match l with
  | [] => []
  | x :: t => if Reqb x prev then drop_repeats x t else x :: drop_repeats x t
  end.

(** [np.unique(ar)]: sort, then keep the first entry and every entry that
    differs from the one before it. *)
Definition unique (ar : list R) : list R :=
  match sort ar with
  | [] => []
  | x :: t => x :: drop_repeats x t
  end.

Definition sum (a : list R) : R := fold_right Rplus 0 a.

(** [np.mean(a)]: [add.reduce(a) / n]; [nan] on an empty array. *)
Definition mean (a : list R) : num :=
  num_div (Some (sum a)) (Some (INR (length a))).

(** [np.var(a, ddof)]: the squared deviations from the mean, summed and
    divided by [max(n - ddof, 0)]. *)
Definition var (ddof : nat) (a : list R) : num :=
  match mean a with
  | Some m =>
      let x := map (fun v => v - m) a in
      num_div (Some (sum (map (fun v => v * v) x)))
              (Some (INR (Nat.max (length a - ddof) 0)))
  | None => None
  end.

(** [np.std(a)]: the square root of the variance, with numpy's default
    [ddof = 0]. *)
Definition std (a : list R) : num := option_map sqrt (var 0 a).

(** [np.percentile(a, q)] for an integer percentage [q], default (linear)
    interpolation: the position [q/100 * (n-1)] in the sorted array, the
    entries below and above it weighted by the distance to the position. *)
Definition percentile (a : list R) (q : nat) : num :=
  match a with
  | [] => None
  | _ :: _ =>
      let ap := sort a in
      let Nx := length a in
      let pos := (q * (Nx - 1))%nat in
      let indices_below := (pos / 100)%nat in
      let indices_above := Nat.min (indices_below + 1) (Nx - 1) in
      let weights_above := INR (pos mod 100) / 100 in
      let weights_below := 1 - weights_above in
      Some (nth indices_below ap 0 * weights_below
            + nth indices_above ap 0 * weights_above)
  end.

(** [np.median(a)]: the mean of the middle entry (odd length) or of the two
    middle entries (even length) of the sorted array; [nan] when empty. *)
Definition median (a : list R) : num :=
  let part := sort a in
  let sz := length a in
  let index := (sz / 2)%nat in
  if Nat.odd sz
  then mean (firstn 1 (skipn index part))
  else mean (firstn 2 (skipn (index - 1) part)).

End np.

(** ** Tables *)

(** A row of the data frame that [create_pivot_table] reads, with the
    columns its docstring lists.  The population size is an integer column,
    the others are numeric columns. *)
Module Rec.
Record t := mk {
  T : R;          (* total evolution time, the tree diameter *)
  N : Z;          (* population size *)
  Nmu : R;        (* N * Sim_mu *)
  Sim_mu : R;     (* mutation rate used in the simulation *)
  mu : R;         (* reconstructed mutation rate *)
  dTmrca : R      (* reconstructed minus simulated Tmrca *)
}.
End Rec.

Definition DataFrame := list Rec.t.

(** A row of the summary table. *)
Module Res.
Record t := mk {
  Nmu : R;
  dMu_mean : num;
  dMu_err : num;
  dTmrca_mean : num;
  dTmrca_err : num
}.
End Res.

(** A computed column: the array of its values when every one of them is a
    finite number, [None] as soon as one entry is [inf] or [nan].  What numpy
    and pandas make of such a column is not followed here, where a reduction
    of it has no value; they may well return a finite number (a median below
    an [inf]; [np.mean] of a pandas Series, which skips [nan]).
    [Flt.create_pivot_table] below does not simplify so. *)
Definition Series := option (list R).

Fixpoint Series_of (cells : list num) : Series :=
  match cells with
  | [] => Some []
  | c :: rest =>
      match c, Series_of rest with
      | Some x, Some a => Some (x :: a)
      | _, _ => None
      end
  end.

(** A numpy reduction applied to a computed column. *)
Definition reduce (f : list R -> num) (s : Series) : num :=
  match s with
  | Some a => f a
  | None => None
  end.

Module pd.

(** Boolean indexing [xs[mask]]: the entries whose mask is [True]. *)
Fixpoint select {A : Type} (xs : list A) (mask : list bool) : list A :=
  match xs, mask with
  | x :: xs', b :: mask' => if b then x :: select xs' mask' else select xs' mask'
  | _, _ => []
  end.

(** [Series.sort_values]: ascending. *)
Definition sort_values (s : Series) : Series := option_map np.sort s.

(** [DataFrame.sort_values(by='Nmu')] on the summary table. *)
Fixpoint insert_by_Nmu (r : Res.t) (l : list Res.t) : list Res.t :=
  match l with
  | [] => [r]
  | y :: t =>
      if Rleb (Res.Nmu r) (Res.Nmu y) then r :: y :: t
      else y :: insert_by_Nmu r t
  end.

Fixpoint sort_by_Nmu (l : list Res.t) : list Res.t :=
  match l with
  | [] => []
  | r :: t => insert_by_Nmu r (sort_by_Nmu t)
  end.

End pd.

(** What a call does: it returns a value or raises. *)
Inductive Exception := ValueError.

Inductive outcome (A : Type) :=
| Returns (a : A)
| Raises (e : Exception).
Arguments Returns {A} a.
Arguments Raises {A} e.

(** [pandas.DataFrame({...})] from five columns given as arrays or lists:
    the columns must have one length, or the constructor raises
    [ValueError]. *)
Fixpoint pandas_DataFrame (Nmu : list R) (dMu_mean dMu_err dTmrca_mean dTmrca_err : list num)
  : outcome (list Res.t) :=
  match Nmu, dMu_mean, dMu_err, dTmrca_mean, dTmrca_err with
  | [], [], [], [], [] => Returns []
  | k :: Nmu', a :: dMu_mean', b :: dMu_err', c :: dTmrca_mean', d :: dTmrca_err' =>
      match pandas_DataFrame Nmu' dMu_mean' dMu_err' dTmrca_mean' dTmrca_err' with
      | Returns rows => Returns (Res.mk k a b c d :: rows)
      | Raises e => Raises e
      end
  | _, _, _, _, _ => Raises ValueError
  end.

(** ** [create_pivot_table] *)

(** The rows kept by [df[ df["T"] / df["N"] == T_over_N ]].  In pandas [/]
    is the true quotient, also by an integer column; a zero divisor gives
    [inf] or [nan], which equals no finite [T_over_N]. *)
Definition ratio (r : Rec.t) : num :=
  num_div (Some (Rec.T r)) (Some (IZR (Rec.N r))).

Definition filter_T_over_N (df : DataFrame) (T_over_N : option R) : DataFrame :=
  match T_over_N with
  | Some v => pd.select df (map (fun r => num_eqb (ratio r) v) df)
  | None => df
  end.

(** The entries of [-(DF.Sim_mu[idxs] - DF.mu[idxs])/DF.Sim_mu[idxs]] and of
    [DF.dTmrca[idxs]/DF.N[idxs]], row by row. *)
Definition e_mu (r : Rec.t) : num :=
  num_div (Some (- (Rec.Sim_mu r - Rec.mu r))) (Some (Rec.Sim_mu r)).

Definition e_t (r : Rec.t) : num :=
  num_div (Some (Rec.dTmrca r)) (Some (IZR (Rec.N r))).

(** The lists and the mask that the loop over [N_MUS] updates. *)
Record loop_state := mk_state {
  N_MUS_idxs : list bool;
  mu_mean : list num;
  mu_err : list num;
  tmrca_mean : list num;
  tmrca_err : list num
}.

(** [l[idx] = v] on an array. *)
Fixpoint set_item {A : Type} (l : list A) (idx : nat) (v : A) : list A :=
  match l, idx with
  | [], _ => []
  | _ :: t, O => v :: t
  | x :: t, S i => x :: set_item t i v
  end.

Fixpoint enumerate_from {A : Type} (i : nat) (l : list A) : list (nat * A) :=
  match l with
  | [] => []
  | x :: t => (i, x) :: enumerate_from (S i) t
  end.

Definition enumerate {A : Type} (l : list A) := enumerate_from 0 l.

(** One pass through the body of [for idx, N_MU in enumerate(N_MUS)]. *)
Definition loop_body (DF : DataFrame) (mean_or_median : string)
    (st : loop_state) (it : nat * R) : loop_state :=
  let (idx, N_MU) := it in
  let idxs := map (fun r => Reqb (Rec.Nmu r) N_MU) DF in
  if (count_occ bool_dec idxs true =? 0)%nat then
    mk_state (set_item (N_MUS_idxs st) idx false)
             (mu_mean st) (mu_err st) (tmrca_mean st) (tmrca_err st)
  else
    let dMu := pd.sort_values (Series_of (map e_mu (pd.select DF idxs))) in
    let dTmrca := pd.sort_values (Series_of (map e_t (pd.select DF idxs))) in
    if (mean_or_median =? "mean")%string then
      mk_state (N_MUS_idxs st)
               (mu_mean st ++ [reduce np.mean dMu])
               (mu_err st ++ [reduce np.std dMu])
               (tmrca_mean st ++ [reduce np.mean dTmrca])
               (tmrca_err st ++ [reduce np.std dTmrca])
    else
      let q75 := reduce (fun a => np.percentile a 75) dMu in
      let q25 := reduce (fun a => np.percentile a 25) dMu in
      let mu_err' := mu_err st ++ [num_sub q75 q25] in
      let mu_mean' := mu_mean st ++ [reduce np.median dMu] in
      let q75 := reduce (fun a => np.percentile a 75) dTmrca in
      let q25 := reduce (fun a => np.percentile a 25) dTmrca in
      let tmrca_err' := tmrca_err st ++ [num_sub q75 q25] in
      let tmrca_mean' := tmrca_mean st ++ [reduce np.median dTmrca] in
      mk_state (N_MUS_idxs st) mu_mean' mu_err' tmrca_mean' tmrca_err'.

Definition create_pivot_table (df : DataFrame) (T_over_N : option R)
    (mean_or_median : string) : outcome (list Res.t) :=
  let DF := filter_T_over_N df T_over_N in
  let N_MUS := np.unique (map Rec.Nmu DF) in
  let init := mk_state (repeat true (length N_MUS)) [] [] [] [] in
  let st := fold_left (loop_body DF mean_or_median) (enumerate N_MUS) init in
  match pandas_DataFrame (pd.select N_MUS (N_MUS_idxs st))
                         (mu_mean st) (mu_err st) (tmrca_mean st) (tmrca_err st) with
  | Returns res => Returns (pd.sort_by_Nmu res)
  | Raises e => Raises e
  end.

(** ** The readers *)

(** A line of a results file of TreeTime or LSD that the reader keeps and
    whose name it can read.  The readers cut four numbers out of the base
    name of the file, split at ["_"]: parts 2, 3, 4 and 6
    ([..._N<N>_Ns<Ns>_Ts<Ts>_..._Mu<mu>_...]); [Name.decode] below is that
    cut, with its [IndexError].  The numbers that [float] and [int] then
    read are given here beside the name. *)
Module Run.
Record t := mk {
  File : string;
  Sim_Tmrca : R;
  Tmrca : R;
  mu : R;
  R : Rdefinitions.R;    (* TreeTime only: the root-to-tip correlation *)
  name_Mu : Rdefinitions.R;   (* float(...split('_')[6][2:]) *)
  name_Ns : Z;                (* int(...split('_')[3][2:]) *)
  name_Ts : Z;                (* int(...split('_')[4][2:]) *)
  name_N : Z                  (* int(...split('_')[2][1:]) *)
}.
End Run.

(** A line of the BEAST results file, which carries the simulation
    parameters as columns. *)
Module Beast.
Record t := mk {
  File : string;
  N : Z;
  Sim_Tmrca : R;
  Sim_mu : R;
  T : R;
  Nmu : R;
  Tmrca : R;
  mu : R
}.
End Beast.

(** The columns added by "some very basic preprocessing", for one such
    line.  ([T] is the product [Ns * Ts] as an integer; the int64 column of
    pandas wraps around beyond [2^63].) *)
Definition preprocess (r : Run.t) : Rec.t :=
  let dTmrca := - (Run.Sim_Tmrca r - Run.Tmrca r) in
  let Sim_mu := Run.name_Mu r in
  let N := Run.name_N r in
  let T := IZR (Run.name_Ns r * Run.name_Ts r) in
  let Nmu := IZR N * Sim_mu in
  Rec.mk T N Nmu Sim_mu (Run.mu r) dTmrca.

(** The BEAST reader adds [dTmrca] only. *)
Definition with_dTmrca (r : Beast.t) : Rec.t :=
  let dTmrca := - (Beast.Sim_Tmrca r - Beast.Tmrca r) in
  Rec.mk (Beast.T r) (Beast.N r) (Beast.Nmu r) (Beast.Sim_mu r) (Beast.mu r) dTmrca.

(** ** The estimators, as the specification words them *)

Module Estimator.

(** Arithmetic mean: the sum over the count. *)
Definition arithmetic_mean (xs : list R) : R := np.sum xs / INR (length xs).

(** Sum of the squared deviations from the arithmetic mean. *)
Definition squared_deviations (xs : list R) : R :=
  np.sum (map (fun x => Rsqr (x - arithmetic_mean xs)) xs).

(** Population standard deviation: divisor [n]. *)
Definition population_std (xs : list R) : R :=
  sqrt (squared_deviations xs / INR (length xs)).

(** Sample standard deviation: divisor [n - 1]. *)
Definition sample_std (xs : list R) : R :=
  sqrt (squared_deviations xs / INR (length xs - 1)).

(** Median: the middle value in ascending order, or the midpoint of the two
    middle values. *)
Definition median (xs : list R) : R :=
  let a := np.sort xs in
  let n := length xs in
  if Nat.even n
  then (nth (n / 2 - 1) a 0 + nth (n / 2) a 0) / 2
  else nth (n / 2) a 0.

(** The [q]-th percentile by linear interpolation between closest ranks:
    the rank position is [q/100 * (n-1)] (ranks from 0); between the ranks
    below and above it the value moves linearly. *)
Definition percentile (q : nat) (xs : list R) : R :=
  let a := np.sort xs in
  let pos := (q * (length xs - 1))%nat in
  let below := (pos / 100)%nat in
  let above := (if (pos mod 100 =? 0)%nat then below else below + 1)%nat in
  let fraction := INR (pos mod 100) / 100 in
  nth below a 0 + fraction * (nth above a 0 - nth below a 0).

(** Interquartile range. *)
Definition iqr (xs : list R) : R := percentile 75 xs - percentile 25 xs.

End Estimator.

(** ** The summary table, group by group *)

(** The members of the group of key [k]. *)
Definition group (DF : DataFrame) (k : R) : DataFrame :=
  filter (fun r => Reqb (Rec.Nmu r) k) DF.

(** The row that one pass of the loop contributes for a key with members. *)
Definition summary (DF : DataFrame) (mean_or_median : string) (k : R) : Res.t :=
  let dMu := pd.sort_values (Series_of (map e_mu (group DF k))) in
  let dTmrca := pd.sort_values (Series_of (map e_t (group DF k))) in
  if (mean_or_median =? "mean")%string then
    Res.mk k (reduce np.mean dMu) (reduce np.std dMu)
             (reduce np.mean dTmrca) (reduce np.std dTmrca)
  else
    Res.mk k (reduce np.median dMu)
             (num_sub (reduce (fun a => np.percentile a 75) dMu)
                      (reduce (fun a => np.percentile a 25) dMu))
             (reduce np.median dTmrca)
             (num_sub (reduce (fun a => np.percentile a 75) dTmrca)
                      (reduce (fun a => np.percentile a 25) dTmrca)).

(** An estimator on the computed values of a group: it has a value when
    every one of them is a finite number. *)
Definition estimate (f : list R -> R) (cells : list num) : num :=
  option_map f (Series_of cells).

(** The number of distinct values of a column. *)
Definition distinct (xs : list R) : nat := length (nodup Req_EM_T xs).

(** ** [create_pivot_table] over binary64 *)

(** The script computes in binary64 and takes its statistics from numpy and
    pandas.  [Flt.ops] names what it takes from them: the cells, the
    conversion of an integer column, the arithmetic of lines 135, 153, 157,
    169 and 172, and the sorting and the reductions of lines 154 to 173.
    [Flt.create_pivot_table] is the function over any such operations, on a
    table of such cells, with nothing assumed of them: rounding, overflow,
    [inf], [nan] and the sign of a zero are what the operations make of
    them.  With the exact operations [Flt.exact] it is [create_pivot_table]
    above. *)
Module Flt.

Record ops := mk_ops {
  cell : Type;                               (* a binary64 value *)
  of_int64 : Z -> cell;                      (* an int64 cell, as [/] converts it *)
  neg : cell -> cell;                        (* -a *)
  sub : cell -> cell -> cell;                (* a - b *)
  div : cell -> cell -> cell;                (* a / b *)
  eq : cell -> cell -> bool;                 (* a == b *)
  sort_values : list cell -> list cell;      (* Series.sort_values *)
  np_mean : list cell -> cell;               (* np.mean(a), a pandas Series *)
  np_std : nat -> list cell -> cell;         (* np.std(a, ddof=...), a pandas Series *)
  np_median : list cell -> cell;             (* np.median(a) *)
  np_percentile : list cell -> nat -> cell   (* np.percentile(a, q), its default interpolation *)
}.

(** A row of the input table: the columns of [Rec.t], the numeric ones as
    binary64 cells.  The key column [Nmu] is kept as the number it holds,
    for [np.unique] and [==]. *)
Module Rec.
Record t (C : Type) := mk {
  T : C;
  N : Z;
  Nmu : R;
  Sim_mu : C;
  mu : C;
  dTmrca : C
}.
Arguments mk {C} _ _ _ _ _ _.
Arguments T {C} _.
Arguments N {C} _.
Arguments Nmu {C} _.
Arguments Sim_mu {C} _.
Arguments mu {C} _.
Arguments dTmrca {C} _.
End Rec.

(** A row of the summary table. *)
Module Res.
Record t (C : Type) := mk {
  Nmu : R;
  dMu_mean : C;
  dMu_err : C;
  dTmrca_mean : C;
  dTmrca_err : C
}.
Arguments mk {C} _ _ _ _ _.
Arguments Nmu {C} _.
Arguments dMu_mean {C} _.
Arguments dMu_err {C} _.
Arguments dTmrca_mean {C} _.
Arguments dTmrca_err {C} _.
End Res.

Section Script.

Variable F : ops.

Definition DataFrame := list (Rec.t (cell F)).

(** [df["T"] / df["N"]] and the mask [df["T"] / df["N"] == T_over_N], on one
    row. *)
Definition ratio (r : Rec.t (cell F)) : cell F :=
  div F (Rec.T r) (of_int64 F (Rec.N r)).

Definition ratio_is (T_over_N : cell F) (r : Rec.t (cell F)) : bool :=
  eq F (ratio r) T_over_N.

Definition filter_T_over_N (df : DataFrame) (T_over_N : option (cell F)) : DataFrame :=
  match T_over_N with
  | Some v => pd.select df (map (ratio_is v) df)
  | None => df
  end.

(** [-(DF.Sim_mu[idxs] - DF.mu[idxs])/DF.Sim_mu[idxs]] and
    [DF.dTmrca[idxs]/DF.N[idxs]], on one row. *)
Definition e_mu (r : Rec.t (cell F)) : cell F :=
  div F (neg F (sub F (Rec.Sim_mu r) (Rec.mu r))) (Rec.Sim_mu r).

Definition e_t (r : Rec.t (cell F)) : cell F :=
  div F (Rec.dTmrca r) (of_int64 F (Rec.N r)).

Record loop_state := mk_state {
  N_MUS_idxs : list bool;
  mu_mean : list (cell F);
  mu_err : list (cell F);
  tmrca_mean : list (cell F);
  tmrca_err : list (cell F)
}.

(** One pass through the body of [for idx, N_MU in enumerate(N_MUS)].
    [np.std(dMu)] leaves [ddof] at its default, 0. *)
Definition loop_body (DF : DataFrame) (mean_or_median : string)
    (st : loop_state) (it : nat * R) : loop_state :=
  let (idx, N_MU) := it in
  let idxs := map (fun r => Reqb (Rec.Nmu r) N_MU) DF in
  if (count_occ bool_dec idxs true =? 0)%nat then
    mk_state (set_item (N_MUS_idxs st) idx false)
             (mu_mean st) (mu_err st) (tmrca_mean st) (tmrca_err st)
  else
    let dMu := sort_values F (map e_mu (pd.select DF idxs)) in
    let dTmrca := sort_values F (map e_t (pd.select DF idxs)) in
    if (mean_or_median =? "mean")%string then
      mk_state (N_MUS_idxs st)
               (mu_mean st ++ [np_mean F dMu])
               (mu_err st ++ [np_std F 0 dMu])
               (tmrca_mean st ++ [np_mean F dTmrca])
               (tmrca_err st ++ [np_std F 0 dTmrca])
    else
      let q75 := np_percentile F dMu 75 in
      let q25 := np_percentile F dMu 25 in
      let mu_err' := mu_err st ++ [sub F q75 q25] in
      let mu_mean' := mu_mean st ++ [np_median F dMu] in
      let q75 := np_percentile F dTmrca 75 in
      let q25 := np_percentile F dTmrca 25 in
      let tmrca_err' := tmrca_err st ++ [sub F q75 q25] in
      let tmrca_mean' := tmrca_mean st ++ [np_median F dTmrca] in
      mk_state (N_MUS_idxs st) mu_mean' mu_err' tmrca_mean' tmrca_err'.

(** [pandas.DataFrame({...})]: [ValueError] unless the five columns have
    one length. *)
Fixpoint pandas_DataFrame (Nmu : list R)
    (dMu_mean dMu_err dTmrca_mean dTmrca_err : list (cell F))
  : outcome (list (Res.t (cell F))) :=
  match Nmu, dMu_mean, dMu_err, dTmrca_mean, dTmrca_err with
  | [], [], [], [], [] => Returns []
  | k :: Nmu', a :: dMu_mean', b :: dMu_err', c :: dTmrca_mean', d :: dTmrca_err' =>
      match pandas_DataFrame Nmu' dMu_mean' dMu_err' dTmrca_mean' dTmrca_err' with
      | Returns rows => Returns (Res.mk k a b c d :: rows)
      | Raises e => Raises e
      end
  | _, _, _, _, _ => Raises ValueError
  end.

(** [DataFrame.sort_values(by='Nmu')]. *)
Fixpoint insert_by_Nmu (r : Res.t (cell F)) (l : list (Res.t (cell F)))
  : list (Res.t (cell F)) :=
  match l with
  | [] => [r]
  | y :: t =>
      if Rleb (Res.Nmu r) (Res.Nmu y) then r :: y :: t else y :: insert_by_Nmu r t
  end.

Fixpoint sort_by_Nmu (l : list (Res.t (cell F))) : list (Res.t (cell F)) :=
  match l with
  | [] => []
  | r :: t => insert_by_Nmu r (sort_by_Nmu t)
  end.

Definition create_pivot_table (df : DataFrame) (T_over_N : option (cell F))
    (mean_or_median : string) : outcome (list (Res.t (cell F))) :=
  let DF := filter_T_over_N df T_over_N in
  let N_MUS := np.unique (map Rec.Nmu DF) in
  let init := mk_state (repeat true (length N_MUS)) [] [] [] [] in
  let st := fold_left (loop_body DF mean_or_median) (enumerate N_MUS) init in
  match pandas_DataFrame (pd.select N_MUS (N_MUS_idxs st))
                         (mu_mean st) (mu_err st) (tmrca_mean st) (tmrca_err st) with
  | Returns res => Returns (sort_by_Nmu res)
  | Raises e => Raises e
  end.

(** The members of the group of key [k], and the row that one pass of the
    loop contributes for a key with members. *)
Definition group (DF : DataFrame) (k : R) : DataFrame :=
  filter (fun r => Reqb (Rec.Nmu r) k) DF.

Definition summary (DF : DataFrame) (mean_or_median : string) (k : R)
  : Res.t (cell F) :=
  let dMu := sort_values F (map e_mu (group DF k)) in
  let dTmrca := sort_values F (map e_t (group DF k)) in
  if (mean_or_median =? "mean")%string then
    Res.mk k (np_mean F dMu) (np_std F 0 dMu) (np_mean F dTmrca) (np_std F 0 dTmrca)
  else
    Res.mk k (np_median F dMu)
             (sub F (np_percentile F dMu 75) (np_percentile F dMu 25))
             (np_median F dTmrca)
             (sub F (np_percentile F dTmrca 75) (np_percentile F dTmrca 25)).

End Script.

(** The same operations but for the two reductions of the ["mean"] branch,
    and but for the two of the other branch. *)
Definition with_mean_std (F : ops) (mean' : list (cell F) -> cell F)
    (std' : nat -> list (cell F) -> cell F) : ops :=
  mk_ops (cell F) (of_int64 F) (neg F) (sub F) (div F) (eq F)
         (sort_values F) mean' std' (np_median F) (np_percentile F).

Definition with_median_percentile (F : ops) (median' : list (cell F) -> cell F)
    (percentile' : list (cell F) -> nat -> cell F) : ops :=
  mk_ops (cell F) (of_int64 F) (neg F) (sub F) (div F) (eq F)
         (sort_values F) (np_mean F) (np_std F) median' percentile'.

(** The operations of [create_pivot_table] above: exact arithmetic on finite
    numbers, and no value for a reduction of a column that has an [inf] or a
    [nan]. *)
Definition exact : ops :=
  mk_ops num
         (fun z => Some (IZR z))
         (option_map Ropp)
         num_sub
         num_div
         (fun a b => match b with Some y => num_eqb a y | None => false end)
         (fun cells => match Series_of cells with
                       | Some a => map (fun x => Some x) (np.sort a)
                       | None => cells
                       end)
         (fun cells => reduce np.mean (Series_of cells))
         (fun ddof cells => option_map sqrt (reduce (np.var ddof) (Series_of cells)))
         (fun cells => reduce np.median (Series_of cells))
         (fun cells q => reduce (fun a => np.percentile a q) (Series_of cells)).

End Flt.

(** A table of real numbers as a table of exact cells, and back from the
    summary table. *)
Definition exact_Rec (r : Rec.t) : Flt.Rec.t num :=
  Flt.Rec.mk (Some (Rec.T r)) (Rec.N r) (Rec.Nmu r)
             (Some (Rec.Sim_mu r)) (Some (Rec.mu r)) (Some (Rec.dTmrca r)).

Definition exact_Res (r : Res.t) : Flt.Res.t num :=
  Flt.Res.mk (Res.Nmu r) (Res.dMu_mean r) (Res.dMu_err r)
             (Res.dTmrca_mean r) (Res.dTmrca_err r).

(** A real number that binary64 holds, rounded, as a finite number: one of
    magnitude at most [2^1023] (the largest finite binary64 number is just
    below [2^1024]). *)
Definition in_binary64_range (x : R) : Prop := Rabs x <= 2 ^ 1023.

(** ** File names *)

(** What the readers do with a file name before [float] and [int] read the
    numbers: [x.split("/")[-1].split('_')[i][n:]]. *)
Module Name.

(** [s.split(sep)] for a separator of one character: the pieces between the
    separators, empty pieces included; never an empty list. *)
Fixpoint split (sep : Ascii.ascii) (s : string) : list string :=
  match s with
  | EmptyString => [EmptyString]
  | String c s' =>
      if Ascii.eqb c sep then EmptyString :: split sep s'
      else match split sep s' with
           | [] => [String c EmptyString]
           | w :: ws => String c w :: ws
           end
  end.

(** [sep.join(parts)]. *)
Fixpoint join (sep : Ascii.ascii) (parts : list string) : string :=
  match parts with
  | [] => EmptyString
  | [p] => p
  | p :: rest => p ++ String sep (join sep rest)
  end.

(** [s[n:]]. *)
Fixpoint drop (n : nat) (s : string) : string :=
  match n, s with
  | O, _ => s
  | S n', String _ s' => drop n' s'
  | S _, EmptyString => EmptyString
  end.

(** An indexing: the item, or [IndexError]. *)
Inductive lookup (A : Type) :=
| Item (a : A)
| IndexError.
Arguments Item {A} a.
Arguments IndexError {A}.

(** [parts[-1]]. *)
Definition last_item (parts : list string) : lookup string :=
  match parts with
  | [] => IndexError
  | p :: rest => Item (last rest p)
  end.

(** [parts[i]] for [i >= 0]. *)
Definition item (parts : list string) (i : nat) : lookup string :=
  match nth_error parts i with
  | Some p => Item p
  | None => IndexError
  end.

(** [x.split("/")[-1].split('_')[i][n:]]. *)
Definition part (x : string) (i n : nat) : lookup string :=
  match last_item (split "/"%char x) with
  | Item base =>
      match item (split "_"%char base) i with
      | Item p => Item (drop n p)
      | IndexError => IndexError
      end
  | IndexError => IndexError
  end.

(** The four texts cut out of a name, in the order of the four assignments
    ([Sim_mu], [Ns], [Ts], [N]); the first failing one raises. *)
Record texts := mk { Sim_mu : string; Ns : string; Ts : string; N : string }.

Definition decode (x : string) : lookup texts :=
  match part x 6 2 with
  | Item mu =>
      match part x 3 2 with
      | Item ns =>
          match part x 4 2 with
          | Item ts =>
              match part x 2 1 with
              | Item n => Item (mk mu ns ts n)
              | IndexError => IndexError
              end
          | IndexError => IndexError
          end
      | IndexError => IndexError
      end
  | IndexError => IndexError
  end.

(** The number of occurrences of a character. *)
Fixpoint count (c : Ascii.ascii) (s : string) : nat :=
  match s with
  | EmptyString => 0
  | String d s' => (if Ascii.eqb d c then 1 else 0) + count c s'
  end.

End Name.

(** ** The submission scripts *)

(** [os.path.join(a, b)] on a POSIX system. *)
Module os_path.

Definition startswith_slash (s : string) : bool :=
  match s with
  | String c _ => Ascii.eqb c "/"
  | EmptyString => false
  end.

Fixpoint endswith_slash (s : string) : bool :=
  match s with
  | EmptyString => false
  | String c EmptyString => Ascii.eqb c "/"
  | String _ s' => endswith_slash s'
  end.

Definition join (a b : string) : string :=
  if startswith_slash b then b
  else if (String.eqb a "" || endswith_slash a)%bool then a ++ b
  else a ++ String "/" b.

End os_path.

(** [str(n)] for a non-negative integer. *)
Definition str (n : nat) : string :=
  DecimalString.NilEmpty.string_of_uint (Nat.to_uint n).

(** [fmt.format(arg)] for a template with one replacement field ["{}"] and
    no other brace. *)
Fixpoint format (fmt arg : string) : string :=
  match fmt with
  | EmptyString => EmptyString
  | String c rest =>
      match rest with
      | String d rest' =>
          if (Ascii.eqb c "{" && Ascii.eqb d "}")%bool then arg ++ rest'
          else String c (format rest arg)
      | EmptyString => String c EmptyString
      end
  end.

(** A run of a script is the list of the command lines it hands to
    [sp.call], in the order of the calls. *)
Definition calls := list (list string).

(** [generate_flu_subtrees_dataset_submit.py], as a function of the
    constants [CLUSTER], [N_leaves_array] and [n_iter] set at its top. *)
Module Subtrees.

Definition work_dir : string := "./flu_H3N2/subtree_samples".
Definition out_dir : string := os_path.join work_dir "2017-04-20".
Definition treetime_res_file : string :=
  os_path.join work_dir "2017-04-20_treetime_res.csv".
Definition lsd_res_file : string := os_path.join work_dir "2017-04-20_lsd_res.csv".

Definition call (CLUSTER : bool) : list string :=
  if CLUSTER then
    ["qsub"; "-cwd"; "-b"; "y";
     "-l"; "h_rt=23:59:0";
     "-l"; "h_vmem=50G";
     "./generate_flu_subtrees_dataset_run.py"]%string
  else ["./generate_flu_subtrees_dataset_run.py"]%string.

Definition arguments (N_leaves iteration : nat) : list string :=
  let subtree_fname_suffix := str iteration in
  [str N_leaves; out_dir; subtree_fname_suffix; treetime_res_file; lsd_res_file].

(** The two nested loops; [done] holds the calls made so far. *)
Definition run (CLUSTER : bool) (N_leaves_array : list nat) (n_iter : nat) : calls :=
  fold_left
    (fun done N_leaves =>
       fold_left
         (fun done iteration =>
            done ++ [call CLUSTER ++ arguments N_leaves iteration])
         (seq 0 n_iter) done)
    N_leaves_array [].

Definition main : calls :=
  run true [20; 50; 100; 200; 500; 750; 1000; 1250; 1500; 1750; 2000]%nat 20.

End Subtrees.

(** [generate_flu_missingDates_dataset_submit.py], as a function of the
    constants [CLUSTER], [nseqs], [dates_knonwn_fraction] and [Npoints].
    [float_str] is Python's [str] on a float. *)
Module MissingDates.

Definition out_dir : string := "./flu_H3N2/missing_dates/".
Definition subtree_dir : string := os_path.join out_dir "subtrees".

Definition resfile_fmt : string :=
  os_path.join out_dir "./H3N2_HA_2011_2013_{}seqs_res.csv".
Definition resfile_dates_fmt : string :=
  os_path.join out_dir "./H3N2_HA_2011_2013_{}seqs_dates_res.csv".
Definition treefile_fmt : string :=
  os_path.join subtree_dir "./H3N2_HA_2011_2013_{}seqs.nwk".
Definition alnfile_fmt : string :=
  os_path.join subtree_dir "./H3N2_HA_2011_2013_{}seqs.fasta".

Definition call (CLUSTER : bool) : list string :=
  if CLUSTER then
    ["qsub"; "-cwd"; "-b"; "y";
     "-l"; "h_rt=1:59:0";
     "-l"; "h_vmem=3G";
     "./generate_flu_missingDates_dataset_run.py"]%string
  else ["./generate_flu_missingDates_dataset_run.py"]%string.

Definition arguments (float_str : R -> string) (nseq : nat) (frac : R) : list string :=
  [float_str frac;
   format alnfile_fmt (str nseq);
   format treefile_fmt (str nseq);
   format resfile_fmt (str nseq);
   format resfile_dates_fmt (str nseq)].

Definition run (float_str : R -> string) (CLUSTER : bool) (nseqs : list nat)
    (dates_knonwn_fraction : list R) (Npoints : nat) : calls :=
  fold_left
    (fun done nseq =>
       fold_left
         (fun done frac =>
            fold_left
              (fun done point =>
                 done ++ [call CLUSTER ++ arguments float_str nseq frac])
              (seq 0 Npoints) done)
         dates_knonwn_fraction done)
    nseqs [].

Definition main (float_str : R -> string) : calls :=
  run float_str true [100%nat] [5 / 10] 1.

End MissingDates.

(** ** Sample tables *)

(** The scenario of the specification: population size 1000, two groups
    ([Sim_mu] 0.001 and 0.002), the first with reconstructed rates 0.0012
    and 0.0009; all three runs have [T/N = 10].  [outlier] is a run of the
    first group's parameters with [T/N = 4]. *)
Definition run_a : Rec.t := Rec.mk 10000 1000 1 (1 / 1000) (12 / 10000) 50.
Definition run_b : Rec.t := Rec.mk 10000 1000 1 (1 / 1000) (9 / 10000) (-30).
Definition run_c : Rec.t := Rec.mk 10000 1000 2 (2 / 1000) (21 / 10000) 20.
Definition outlier : Rec.t := Rec.mk 4000 1000 1 (1 / 1000) (5 / 1000) 900.

Definition scenario : DataFrame := [run_c; run_a; outlier; run_b].

(** A line of a TreeTime results file and a line of the BEAST file. *)
Definition sample_line : Run.t :=
  Run.mk "./simulated_data/FluH3N2_HA_N1000_Ns20_Ts500_Nmu1.0_Mu0.001_tree.nwk"
         1900 1950 (12 / 10000) (9 / 10) (1 / 1000) 20 500 1000.

Definition sample_beast_line : Beast.t :=
  Beast.mk "./simulated_data/FluH3N2_HA_N1000_Ns20_Ts500_Nmu1.0_Mu0.001_tree.nwk"
           1000 1900 (1 / 1000) 10000 1 1950 (12 / 10000).

(** Three runs of one group, with relative rate errors 0, 1 and 3 and
    normalized Tmrca errors 0, 1 and 3; [T/N = 10].  Their cells are numbers
    that binary64 holds exactly. *)
Definition run_0 : Rec.t := Rec.mk 10240 1024 1 (1 / 1024) (1 / 1024) 0.
Definition run_1 : Rec.t := Rec.mk 10240 1024 1 (1 / 1024) (2 / 1024) 1024.
Definition run_3 : Rec.t := Rec.mk 10240 1024 1 (1 / 1024) (4 / 1024) 3072.

Definition triple : DataFrame := [run_3; run_0; run_1].

(** A line of a BEAST results file whose [Nmu] column is not the product of
    its [N] and [Sim_mu] columns. *)
Definition relabelled_beast_line : Beast.t :=
  Beast.mk "./simulated_data/FluH3N2_HA_N1024_Ns20_Ts512_Nmu1.0_Mu0.0009765625_tree.nwk"
           1024 1900 (1 / 1024) 10240 7 1950 (3 / 2048).

(** A run simulated with mutation rate zero, and one with population size
    zero. *)
Definition zero_rate_run : Rec.t := Rec.mk 10240 1024 0 0 (1 / 1024) 64.
Definition zero_size_run : Rec.t := Rec.mk 10240 0 0 (1 / 1024) (3 / 2048) 64.

(** * Properties *)

(** ** Comparisons *)

Lemma Reqb_true_iff (x y : R) : Reqb x y = true <-> x = y.
Proof.
  unfold Reqb. destruct (Req_EM_T x y); split; intro H; congruence.
Qed.

Lemma Reqb_false_iff (x y : R) : Reqb x y = false <-> x <> y.
Proof.
  unfold Reqb. destruct (Req_EM_T x y); split; intro H; congruence.
Qed.

Lemma Rleb_true_iff (x y : R) : Rleb x y = true <-> x <= y.
Proof.
  unfold Rleb. destruct (Rle_dec x y); split; intro H; auto; discriminate.
Qed.

Lemma Rleb_false_iff (x y : R) : Rleb x y = false <-> y < x.
Proof.
  unfold Rleb. destruct (Rle_dec x y); split; intro H; auto; try discriminate; lra.
Qed.

(** ** Sorting and [np.unique] *)

Lemma np_insert_perm (x : R) (l : list R) : Permutation (x :: l) (np.insert x l).
Proof.
  induction l as [|y t IH]; simpl.
  - apply Permutation_refl.
  - destruct (Rleb x y).
    + apply Permutation_refl.
    + rewrite perm_swap. now apply perm_skip.
Qed.

Lemma np_sort_perm (l : list R) : Permutation l (np.sort l).
Proof.
  induction l as [|x t IH]; simpl.
  - constructor.
  - rewrite <- np_insert_perm. now apply perm_skip.
Qed.

Lemma np_sort_length (l : list R) : length (np.sort l) = length l.
Proof. symmetry. apply Permutation_length, np_sort_perm. Qed.

Lemma np_sort_In (x : R) (l : list R) : In x (np.sort l) <-> In x l.
Proof.
  split; apply Permutation_in; [symmetry|]; apply np_sort_perm.
Qed.

Lemma np_insert_sorted (x : R) (l : list R) :
  StronglySorted Rle l -> StronglySorted Rle (np.insert x l).
Proof.
  induction 1 as [|y t Hs IH Hall]; simpl.
  - repeat constructor.
  - destruct (Rleb x y) eqn:E.
    + apply Rleb_true_iff in E. constructor.
      * now constructor.
      * constructor; [exact E|].
        eapply Forall_impl; [|exact Hall]. intros z Hz. simpl in Hz. lra.
    + apply Rleb_false_iff in E. constructor; [exact IH|].
      eapply Permutation_Forall; [apply np_insert_perm|].
      constructor; [lra|exact Hall].
Qed.

Lemma np_sort_sorted (l : list R) : StronglySorted Rle (np.sort l).
Proof.
  induction l as [|x t IH]; simpl.
  - constructor.
  - now apply np_insert_sorted.
Qed.

(** Sorting leaves an ascending array as it is. *)
Lemma np_sort_of_sorted (l : list R) : StronglySorted Rle l -> np.sort l = l.
Proof.
  induction 1 as [|x t Hs IH Hall]; simpl.
  - reflexivity.
  - rewrite IH. destruct t as [|y t']; simpl.
    + reflexivity.
    + inversion Hall as [|? ? Hxy _]; subst.
      apply Rleb_true_iff in Hxy. now rewrite Hxy.
Qed.

Lemma np_sort_idem (l : list R) : np.sort (np.sort l) = np.sort l.
Proof. apply np_sort_of_sorted, np_sort_sorted. Qed.

Lemma drop_repeats_incl (p : R) (l : list R) (y : R) :
  In y (np.drop_repeats p l) -> In y l.
Proof.
  revert p. induction l as [|x t IH]; simpl; intros p H.
  - exact H.
  - destruct (Reqb x p).
    + right. now apply IH with x.
    + destruct H as [H|H]; [now left|right; now apply IH with x].
Qed.

Lemma drop_repeats_keeps (p : R) (l : list R) (y : R) :
  In y l -> y = p \/ In y (np.drop_repeats p l).
Proof.
  revert p. induction l as [|x t IH]; simpl; intros p H.
  - contradiction.
  - destruct (Reqb x p) eqn:E.
    + apply Reqb_true_iff in E. destruct H as [H|H].
      * left. congruence.
      * destruct (IH x H) as [H'|H']; [left; congruence|now right].
    + destruct H as [H|H].
      * right. now left.
      * destruct (IH x H) as [H'|H']; right; [left; congruence|now right].
Qed.

Lemma drop_repeats_sorted (p : R) (l : list R) :
  StronglySorted Rle (p :: l) -> StronglySorted Rlt (p :: np.drop_repeats p l).
Proof.
  revert p. induction l as [|x t IH]; simpl; intros p H.
  - repeat constructor.
  - inversion H as [|? ? Hs Hall]; subst.
    inversion Hall as [|? ? Hpx Hall']; subst.
    specialize (IH x Hs).
    destruct (Reqb x p) eqn:E.
    + apply Reqb_true_iff in E. now subst x.
    + apply Reqb_false_iff in E. constructor; [exact IH|].
      inversion IH as [|? ? _ Hlt]; subst.
      constructor; [lra|].
      eapply Forall_impl; [|exact Hlt]. intros z Hz. simpl in Hz. lra.
Qed.

Lemma np_unique_In (x : R) (l : list R) : In x (np.unique l) <-> In x l.
Proof.
  unfold np.unique. rewrite <- (np_sort_In x l).
  destruct (np.sort l) as [|y t]; [tauto|]. simpl. split.
  - intros [H|H]; [now left|right; now apply drop_repeats_incl with y].
  - intros [H|H]; [now left|].
    destruct (drop_repeats_keeps y t x H) as [H'|H']; [left; congruence|now right].
Qed.

Lemma np_unique_increasing (l : list R) : StronglySorted Rlt (np.unique l).
Proof.
  unfold np.unique. pose proof (np_sort_sorted l) as H.
  destruct (np.sort l) as [|y t]; [constructor|].
  now apply drop_repeats_sorted.
Qed.

Lemma increasing_NoDup (l : list R) : StronglySorted Rlt l -> NoDup l.
Proof.
  induction 1 as [|x t Hs IH Hall]; constructor; [|exact IH].
  intro Hin. rewrite Forall_forall in Hall. specialize (Hall x Hin). lra.
Qed.

Lemma increasing_sorted (l : list R) : StronglySorted Rlt l -> StronglySorted Rle l.
Proof.
  induction 1 as [|x t Hs IH Hall]; constructor; [exact IH|].
  eapply Forall_impl; [|exact Hall]. intros z Hz. simpl in Hz. lra.
Qed.

Lemma np_unique_NoDup (l : list R) : NoDup (np.unique l).
Proof. apply increasing_NoDup, np_unique_increasing. Qed.

(** [np.unique] returns as many entries as the column has distinct values. *)
Lemma np_unique_length (l : list R) : length (np.unique l) = distinct l.
Proof.
  unfold distinct. apply Permutation_length, NoDup_Permutation.
  - apply np_unique_NoDup.
  - apply NoDup_nodup.
  - intro x. rewrite np_unique_In, nodup_In. tauto.
Qed.

(** ** Masks and the summary frame *)

Lemma select_map {A : Type} (p : A -> bool) (xs : list A) :
  pd.select xs (map p xs) = filter p xs.
Proof.
  induction xs as [|x t IH]; simpl; [reflexivity|].
  rewrite IH. reflexivity.
Qed.

Lemma select_all {A : Type} (xs : list A) :
  pd.select xs (repeat true (length xs)) = xs.
Proof.
  induction xs as [|x t IH]; simpl; [reflexivity|]. now rewrite IH.
Qed.

Lemma count_true_map {A : Type} (p : A -> bool) (xs : list A) :
  count_occ bool_dec (map p xs) true = length (filter p xs).
Proof.
  induction xs as [|x t IH]; simpl; [reflexivity|].
  destruct (p x); simpl.
  - destruct (bool_dec true true); [now rewrite IH|congruence].
  - destruct (bool_dec false true); [discriminate|exact IH].
Qed.

Lemma pandas_DataFrame_map (f1 f2 f3 f4 : R -> num) (keys : list R) :
  pandas_DataFrame keys (map f1 keys) (map f2 keys) (map f3 keys) (map f4 keys)
  = Returns (map (fun k => Res.mk k (f1 k) (f2 k) (f3 k) (f4 k)) keys).
Proof.
  induction keys as [|k t IH]; simpl; [reflexivity|]. now rewrite IH.
Qed.

Lemma insert_by_Nmu_perm (r : Res.t) (l : list Res.t) :
  Permutation (r :: l) (pd.insert_by_Nmu r l).
Proof.
  induction l as [|y t IH]; simpl.
  - apply Permutation_refl.
  - destruct (Rleb (Res.Nmu r) (Res.Nmu y)).
    + apply Permutation_refl.
    + rewrite perm_swap. now apply perm_skip.
Qed.

Lemma sort_by_Nmu_perm (l : list Res.t) : Permutation l (pd.sort_by_Nmu l).
Proof.
  induction l as [|x t IH]; simpl.
  - constructor.
  - rewrite <- insert_by_Nmu_perm. now apply perm_skip.
Qed.

Lemma sort_by_Nmu_In (r : Res.t) (l : list Res.t) :
  In r (pd.sort_by_Nmu l) <-> In r l.
Proof.
  split; apply Permutation_in; [symmetry|]; apply sort_by_Nmu_perm.
Qed.

(** The key column of the sorted frame is the sorted key column. *)
Lemma insert_by_Nmu_keys (r : Res.t) (l : list Res.t) :
  map Res.Nmu (pd.insert_by_Nmu r l) = np.insert (Res.Nmu r) (map Res.Nmu l).
Proof.
  induction l as [|y t IH]; simpl; [reflexivity|].
  destruct (Rleb (Res.Nmu r) (Res.Nmu y)); simpl; [reflexivity|now rewrite IH].
Qed.

Lemma sort_by_Nmu_keys (l : list Res.t) :
  map Res.Nmu (pd.sort_by_Nmu l) = np.sort (map Res.Nmu l).
Proof.
  induction l as [|x t IH]; simpl; [reflexivity|].
  now rewrite insert_by_Nmu_keys, IH.
Qed.

Lemma sort_by_Nmu_sorted (l : list Res.t) :
  StronglySorted Rle (map Res.Nmu (pd.sort_by_Nmu l)).
Proof. rewrite sort_by_Nmu_keys. apply np_sort_sorted. Qed.

Lemma sort_by_Nmu_length (l : list Res.t) : length (pd.sort_by_Nmu l) = length l.
Proof. symmetry. apply Permutation_length, sort_by_Nmu_perm. Qed.

(** A frame whose keys ascend is already in order. *)
Lemma sort_by_Nmu_of_sorted (l : list Res.t) :
  StronglySorted Rle (map Res.Nmu l) -> pd.sort_by_Nmu l = l.
Proof.
  induction l as [|x t IH]; simpl; intro H; [reflexivity|].
  inversion H as [|? ? Hs Hall]; subst. rewrite (IH Hs).
  destruct t as [|y t']; simpl; [reflexivity|].
  inversion Hall as [|? ? Hxy _]; subst.
  apply Rleb_true_iff in Hxy. now rewrite Hxy.
Qed.

(** ** The loop *)

(** A key that some row of [DF] carries has a non-empty group. *)
Lemma group_nonempty (DF : DataFrame) (k : R) :
  In k (map Rec.Nmu DF) -> group DF k <> [].
Proof.
  intros H. apply in_map_iff in H. destruct H as [r [Hk Hr]].
  assert (In r (group DF k)) as Hin.
  { apply filter_In. split; [exact Hr|]. now apply Reqb_true_iff. }
  intro E. rewrite E in Hin. contradiction.
Qed.

(** For such a key the pass never takes the [continue] branch: the mask is
    untouched and one entry is appended to each of the four lists. *)
Lemma loop_body_present (DF : DataFrame) (m : string) (st : loop_state)
    (idx : nat) (k : R) :
  In k (map Rec.Nmu DF) ->
  loop_body DF m st (idx, k)
  = mk_state (N_MUS_idxs st)
             (mu_mean st ++ [Res.dMu_mean (summary DF m k)])
             (mu_err st ++ [Res.dMu_err (summary DF m k)])
             (tmrca_mean st ++ [Res.dTmrca_mean (summary DF m k)])
             (tmrca_err st ++ [Res.dTmrca_err (summary DF m k)]).
Proof.
  intro H. apply group_nonempty in H.
  unfold loop_body, summary. rewrite count_true_map, select_map.
  fold (group DF k).
  destruct (group DF k) as [|r g] eqn:E; [congruence|].
  simpl (length _ =? 0)%nat. cbv iota.
  destruct (m =? "mean")%string; reflexivity.
Qed.

(** For a key that no row carries the pass masks the key out and appends
    nothing. *)
Lemma loop_body_absent (DF : DataFrame) (m : string) (st : loop_state)
    (idx : nat) (k : R) :
  ~ In k (map Rec.Nmu DF) ->
  loop_body DF m st (idx, k)
  = mk_state (set_item (N_MUS_idxs st) idx false)
             (mu_mean st) (mu_err st) (tmrca_mean st) (tmrca_err st).
Proof.
  intro H. unfold loop_body. rewrite count_true_map. fold (group DF k).
  destruct (group DF k) as [|r g] eqn:E; [reflexivity|].
  exfalso. apply H. apply in_map_iff. exists r.
  assert (In r (group DF k)) as Hin by (rewrite E; now left).
  apply filter_In in Hin. destruct Hin as [Hr Hk].
  apply Reqb_true_iff in Hk. now split.
Qed.

Lemma loop_present (DF : DataFrame) (m : string) (keys : list R) :
  forall (i : nat) (st : loop_state),
  Forall (fun k => In k (map Rec.Nmu DF)) keys ->
  fold_left (loop_body DF m) (enumerate_from i keys) st
  = mk_state (N_MUS_idxs st)
             (mu_mean st ++ map (fun k => Res.dMu_mean (summary DF m k)) keys)
             (mu_err st ++ map (fun k => Res.dMu_err (summary DF m k)) keys)
             (tmrca_mean st ++ map (fun k => Res.dTmrca_mean (summary DF m k)) keys)
             (tmrca_err st ++ map (fun k => Res.dTmrca_err (summary DF m k)) keys).
Proof.
  induction keys as [|k t IH]; intros i st H; cbn [fold_left enumerate_from map].
  - rewrite !app_nil_r. now destruct st.
  - inversion H as [|? ? Hk Ht]; subst.
    rewrite (loop_body_present DF m st i k Hk), (IH _ _ Ht).
    cbn [N_MUS_idxs mu_mean mu_err tmrca_mean tmrca_err].
    now rewrite <- !app_assoc.
Qed.

Lemma unique_keys_present (DF : DataFrame) :
  Forall (fun k => In k (map Rec.Nmu DF)) (np.unique (map Rec.Nmu DF)).
Proof. apply Forall_forall. intros k H. now apply np_unique_In. Qed.

Lemma summary_Nmu (DF : DataFrame) (m : string) (k : R) :
  Res.Nmu (summary DF m k) = k.
Proof. unfold summary. destruct (m =? "mean")%string; reflexivity. Qed.

Lemma summary_eta (DF : DataFrame) (m : string) (k : R) :
  Res.mk k (Res.dMu_mean (summary DF m k)) (Res.dMu_err (summary DF m k))
         (Res.dTmrca_mean (summary DF m k)) (Res.dTmrca_err (summary DF m k))
  = summary DF m k.
Proof. unfold summary. destruct (m =? "mean")%string; reflexivity. Qed.

Lemma summary_keys (DF : DataFrame) (m : string) (keys : list R) :
  map Res.Nmu (map (summary DF m) keys) = keys.
Proof.
  rewrite map_map. rewrite <- (map_id keys) at 2.
  apply map_ext. intro k. apply summary_Nmu.
Qed.

(** The loop state after the last pass. *)
Lemma loop_final (df : DataFrame) (T_over_N : option R) (m : string) :
  let DF := filter_T_over_N df T_over_N in
  let N_MUS := np.unique (map Rec.Nmu DF) in
  fold_left (loop_body DF m) (enumerate N_MUS)
            (mk_state (repeat true (length N_MUS)) [] [] [] [])
  = mk_state (repeat true (length N_MUS))
             (map (fun k => Res.dMu_mean (summary DF m k)) N_MUS)
             (map (fun k => Res.dMu_err (summary DF m k)) N_MUS)
             (map (fun k => Res.dTmrca_mean (summary DF m k)) N_MUS)
             (map (fun k => Res.dTmrca_err (summary DF m k)) N_MUS).
Proof.
  intros DF N_MUS. unfold enumerate.
  rewrite (loop_present DF m N_MUS 0 _ (unique_keys_present DF)).
  reflexivity.
Qed.

(** The table returned: one row per key of [np.unique], in that order. *)
Lemma create_pivot_table_eq (df : DataFrame) (T_over_N : option R) (m : string) :
  create_pivot_table df T_over_N m
  = Returns (map (summary (filter_T_over_N df T_over_N) m)
                 (np.unique (map Rec.Nmu (filter_T_over_N df T_over_N)))).
Proof.
  unfold create_pivot_table. rewrite loop_final. cbn [N_MUS_idxs mu_mean mu_err tmrca_mean tmrca_err].
  rewrite select_all, pandas_DataFrame_map.
  rewrite (map_ext _ _ (summary_eta (filter_T_over_N df T_over_N) m)).
  f_equal. apply sort_by_Nmu_of_sorted.
  rewrite summary_keys. apply increasing_sorted, np_unique_increasing.
Qed.

Lemma filter_T_over_N_eq (df : DataFrame) (v : R) :
  filter_T_over_N df (Some v) = filter (fun r => num_eqb (ratio r) v) df.
Proof. unfold filter_T_over_N. apply select_map. Qed.

(** ** numpy's reductions and the estimators *)

Lemma num_div_finite (x y : R) : y <> 0 -> num_div (Some x) (Some y) = Some (x / y).
Proof.
  intro H. unfold num_div. destruct (Req_EM_T y 0); [contradiction|reflexivity].
Qed.

Lemma length_INR_nonzero {A : Type} (a : list A) : a <> [] -> INR (length a) <> 0.
Proof.
  intro H. apply not_0_INR. destruct a; [congruence|discriminate].
Qed.

Lemma np_sum_perm (a b : list R) : Permutation a b -> np.sum a = np.sum b.
Proof.
  induction 1 as [|x a b _ IH|x y a|a b c _ IH1 _ IH2]; simpl.
  - reflexivity.
  - now rewrite IH.
  - lra.
  - congruence.
Qed.

Lemma np_mean_perm (a b : list R) : Permutation a b -> np.mean a = np.mean b.
Proof.
  intro H. unfold np.mean.
  now rewrite (np_sum_perm a b H), (Permutation_length H).
Qed.

Lemma np_var_perm (ddof : nat) (a b : list R) :
  Permutation a b -> np.var ddof a = np.var ddof b.
Proof.
  intro H. unfold np.var. rewrite (np_mean_perm a b H).
  destruct (np.mean b) as [m|]; [|reflexivity].
  rewrite (Permutation_length H). do 2 f_equal.
  apply np_sum_perm. now do 2 apply Permutation_map.
Qed.

Lemma np_std_perm (a b : list R) : Permutation a b -> np.std a = np.std b.
Proof. intro H. unfold np.std. now rewrite (np_var_perm 0 a b H). Qed.

Lemma np_mean_eq (a : list R) :
  a <> [] -> np.mean a = Some (Estimator.arithmetic_mean a).
Proof.
  intro H. unfold np.mean, Estimator.arithmetic_mean.
  apply num_div_finite. now apply length_INR_nonzero.
Qed.

(** [np.std] is the population standard deviation: its divisor is [n]. *)
Lemma np_std_eq (a : list R) :
  a <> [] -> np.std a = Some (Estimator.population_std a).
Proof.
  intro H. unfold np.std, np.var. rewrite (np_mean_eq a H).
  rewrite Nat.sub_0_r, Nat.max_0_r.
  rewrite num_div_finite by now apply length_INR_nonzero.
  simpl. unfold Estimator.population_std, Estimator.squared_deviations.
  now rewrite map_map.
Qed.

Lemma firstn_1_skipn (i : nat) (l : list R) :
  (i < length l)%nat -> firstn 1 (skipn i l) = [nth i l 0].
Proof.
  revert i. induction l as [|x t IH]; intros i H; simpl in H.
  - lia.
  - destruct i as [|i]; [reflexivity|]. simpl. apply IH. lia.
Qed.

Lemma firstn_2_skipn (i : nat) (l : list R) :
  (S i < length l)%nat -> firstn 2 (skipn i l) = [nth i l 0; nth (S i) l 0].
Proof.
  revert i. induction l as [|x t IH]; intros i H; simpl in H.
  - lia.
  - destruct i as [|i].
    + destruct t as [|y t']; [simpl in H; lia|reflexivity].
    + cbn [skipn]. rewrite IH by lia. reflexivity.
Qed.

Lemma np_mean_one (x : R) : np.mean [x] = Some x.
Proof.
  unfold np.mean. rewrite num_div_finite by (simpl; lra).
  f_equal. simpl. field.
Qed.

Lemma np_mean_two (x y : R) : np.mean [x; y] = Some ((x + y) / 2).
Proof.
  unfold np.mean. rewrite num_div_finite by (simpl; lra).
  f_equal. simpl. field.
Qed.

Lemma np_median_eq (a : list R) :
  a <> [] -> np.median a = Some (Estimator.median a).
Proof.
  intro H. unfold np.median, Estimator.median.
  assert (0 < length a)%nat as Hn by (destruct a; [congruence|simpl; lia]).
  rewrite <- Nat.negb_odd.
  destruct (Nat.odd (length a)) eqn:E; simpl negb; cbv iota.
  - rewrite firstn_1_skipn.
    + apply np_mean_one.
    + rewrite np_sort_length. apply Nat.div_lt; lia.
  - assert (Nat.even (length a) = true) as Ev
      by (rewrite <- Nat.negb_odd, E; reflexivity).
    apply Nat.even_spec in Ev. destruct Ev as [h Eh].
    assert (length a / 2 = h)%nat as Hh
      by (rewrite Eh, Nat.mul_comm; apply Nat.div_mul; lia).
    rewrite Hh. assert (0 < h)%nat by lia.
    rewrite firstn_2_skipn.
    + replace (S (h - 1)) with h by lia. apply np_mean_two.
    + rewrite np_sort_length. lia.
Qed.

(** numpy's weighted sum of the two neighbours is the linear interpolation
    between the closest ranks. *)
Lemma np_percentile_eq (q : nat) (a : list R) :
  (q <= 100)%nat -> a <> [] -> np.percentile a q = Some (Estimator.percentile q a).
Proof.
  intros Hq H. unfold np.percentile, Estimator.percentile.
  destruct a as [|x t] eqn:Ea; [congruence|]. rewrite <- Ea. clear H.
  set (n := length a). set (pos := (q * (n - 1))%nat).
  f_equal. destruct (pos mod 100 =? 0)%nat eqn:E.
  - apply Nat.eqb_eq in E. rewrite E. simpl INR. lra.
  - apply Nat.eqb_neq in E.
    assert (pos / 100 < n - 1)%nat as Hlt.
    { pose proof (Nat.div_mod_eq pos 100) as Hd.
      assert (pos <= 100 * (n - 1))%nat as Hle by (unfold pos; nia).
      pose proof (Nat.mod_upper_bound pos 100) as Hm. nia. }
    rewrite Nat.min_l by lia. lra.
Qed.

Lemma np_median_sort (a : list R) : np.median (np.sort a) = np.median a.
Proof. unfold np.median. now rewrite np_sort_idem, np_sort_length. Qed.

Lemma np_percentile_sort (q : nat) (a : list R) :
  np.percentile (np.sort a) q = np.percentile a q.
Proof.
  unfold np.percentile.
  assert (length (np.sort a) = length a) as L by apply np_sort_length.
  destruct a as [|x t]; [reflexivity|].
  destruct (np.sort (x :: t)) as [|y s] eqn:E; [simpl in L; lia|].
  rewrite <- E, np_sort_idem, np_sort_length. reflexivity.
Qed.

(** ** The rows of the summary table *)

Lemma Series_of_length (cells : list num) (a : list R) :
  Series_of cells = Some a -> length a = length cells.
Proof.
  revert a. induction cells as [|c t IH]; simpl; intros a H.
  - now inversion H.
  - destruct c as [x|]; [|discriminate].
    destruct (Series_of t) as [b|]; [|discriminate].
    inversion H; subst. simpl. f_equal. now apply IH.
Qed.

Lemma Series_of_nonempty (cells : list num) (a : list R) :
  cells <> [] -> Series_of cells = Some a -> a <> [].
Proof.
  intros H E Ha. apply Series_of_length in E. subst a.
  destruct cells; [congruence|discriminate].
Qed.

Lemma reduce_mean (cells : list num) :
  cells <> [] ->
  reduce np.mean (pd.sort_values (Series_of cells))
  = estimate Estimator.arithmetic_mean cells.
Proof.
  intro H. unfold estimate. destruct (Series_of cells) as [a|] eqn:E; [|reflexivity].
  simpl. rewrite <- (np_mean_perm a _ (np_sort_perm a)).
  apply np_mean_eq. now apply Series_of_nonempty with cells.
Qed.

Lemma reduce_std (cells : list num) :
  cells <> [] ->
  reduce np.std (pd.sort_values (Series_of cells))
  = estimate Estimator.population_std cells.
Proof.
  intro H. unfold estimate. destruct (Series_of cells) as [a|] eqn:E; [|reflexivity].
  simpl. rewrite <- (np_std_perm a _ (np_sort_perm a)).
  apply np_std_eq. now apply Series_of_nonempty with cells.
Qed.

Lemma reduce_median (cells : list num) :
  cells <> [] ->
  reduce np.median (pd.sort_values (Series_of cells))
  = estimate Estimator.median cells.
Proof.
  intro H. unfold estimate. destruct (Series_of cells) as [a|] eqn:E; [|reflexivity].
  simpl. rewrite np_median_sort.
  apply np_median_eq. now apply Series_of_nonempty with cells.
Qed.

Lemma reduce_iqr (cells : list num) :
  cells <> [] ->
  num_sub (reduce (fun a => np.percentile a 75) (pd.sort_values (Series_of cells)))
          (reduce (fun a => np.percentile a 25) (pd.sort_values (Series_of cells)))
  = estimate Estimator.iqr cells.
Proof.
  intro H. unfold estimate. destruct (Series_of cells) as [a|] eqn:E; [|reflexivity].
  simpl. rewrite !np_percentile_sort.
  assert (a <> []) as Ha by now apply Series_of_nonempty with cells.
  rewrite !np_percentile_eq by (try lia; exact Ha). reflexivity.
Qed.

Lemma map_nonempty {A B : Type} (f : A -> B) (l : list A) : l <> [] -> map f l <> [].
Proof. destruct l; [congruence|discriminate]. Qed.

Lemma summary_mean (DF : DataFrame) (k : R) :
  group DF k <> [] ->
  summary DF "mean" k
  = Res.mk k (estimate Estimator.arithmetic_mean (map e_mu (group DF k)))
             (estimate Estimator.population_std (map e_mu (group DF k)))
             (estimate Estimator.arithmetic_mean (map e_t (group DF k)))
             (estimate Estimator.population_std (map e_t (group DF k))).
Proof.
  intro H. unfold summary. cbn [String.eqb Ascii.eqb Bool.eqb andb].
  now rewrite !reduce_mean, !reduce_std by now apply map_nonempty.
Qed.

Lemma summary_median (DF : DataFrame) (m : string) (k : R) :
  m <> "mean"%string ->
  group DF k <> [] ->
  summary DF m k
  = Res.mk k (estimate Estimator.median (map e_mu (group DF k)))
             (estimate Estimator.iqr (map e_mu (group DF k)))
             (estimate Estimator.median (map e_t (group DF k)))
             (estimate Estimator.iqr (map e_t (group DF k))).
Proof.
  intros Hm H. unfold summary.
  apply String.eqb_neq in Hm. rewrite Hm.
  now rewrite !reduce_median, !reduce_iqr by now apply map_nonempty.
Qed.

(** ** Evaluation on given tables *)

Ltac Rcase :=
  match goal with
  | |- context [Req_EM_T ?a ?b] => destruct (Req_EM_T a b); try lra
  | |- context [Rle_dec ?a ?b] => destruct (Rle_dec a b); try lra
  end.

Ltac table_eval :=
  repeat (cbv [filter_T_over_N pd.select map filter ratio num_eqb num_div num_sub
               Reqb Rleb group e_mu e_t Series_of option_map estimate
               np.unique np.sort np.insert np.drop_repeats
               Rec.T Rec.N Rec.Nmu Rec.Sim_mu Rec.mu Rec.dTmrca
               scenario run_a run_b run_c outlier zero_rate_run zero_size_run
               triple run_0 run_1 run_3];
          try Rcase).

(** Splits an equation between two tables into equations between cells. *)
Ltac cells :=
  repeat match goal with
         | |- Returns _ = Returns _ => f_equal
         | |- _ :: _ = _ :: _ => f_equal
         | |- Res.mk _ _ _ _ _ = Res.mk _ _ _ _ _ => f_equal
         | |- Some _ = Some _ => f_equal
         end.

Lemma scenario_filtered : filter_T_over_N scenario (Some 10) = [run_c; run_a; run_b].
Proof. table_eval. reflexivity. Qed.

Lemma scenario_keys : np.unique (map Rec.Nmu [run_c; run_a; run_b]) = [1; 2].
Proof. table_eval. reflexivity. Qed.

Lemma scenario_group_1 : group [run_c; run_a; run_b] 1 = [run_a; run_b].
Proof. table_eval. reflexivity. Qed.

Lemma scenario_group_2 : group [run_c; run_a; run_b] 2 = [run_c].
Proof. table_eval. reflexivity. Qed.

Lemma sqrt_of_square (x y : R) : 0 <= y -> x = y * y -> sqrt x = y.
Proof. intros Hy E. subst x. now apply sqrt_square. Qed.

(** The scenario of the specification under [mean]: two rows, keys 1 and 2;
    the first group has [dMu_mean = 0.05] and [dMu_err = 0.15]. *)
Example scenario_mean :
  create_pivot_table scenario (Some 10) "mean"
  = Returns [Res.mk 1 (Some (5 / 100)) (Some (15 / 100)) (Some (1 / 100)) (Some (4 / 100));
             Res.mk 2 (Some (5 / 100)) (Some 0) (Some (2 / 100)) (Some 0)].
Proof.
  rewrite create_pivot_table_eq, scenario_filtered, scenario_keys.
  cbn [map]. rewrite !summary_mean by (table_eval; discriminate).
  rewrite scenario_group_1, scenario_group_2.
  table_eval.
  unfold Estimator.population_std, Estimator.squared_deviations,
    Estimator.arithmetic_mean, Rsqr.
  cbn [np.sum fold_right map length INR].
  cells; try (apply sqrt_of_square; lra); lra.
Qed.

(** The same table under [median]. *)
Example scenario_median :
  create_pivot_table scenario (Some 10) "median"
  = Returns [Res.mk 1 (Some (5 / 100)) (Some (15 / 100)) (Some (1 / 100)) (Some (4 / 100));
             Res.mk 2 (Some (5 / 100)) (Some 0) (Some (2 / 100)) (Some 0)].
Proof.
  rewrite create_pivot_table_eq, scenario_filtered, scenario_keys.
  cbn [map]. rewrite !summary_median by (try discriminate; table_eval; discriminate).
  rewrite scenario_group_1, scenario_group_2.
  table_eval.
  unfold Estimator.iqr, Estimator.percentile, Estimator.median.
  table_eval. simpl.
  cells; lra.
Qed.

(** ** The method argument *)

Lemma summary_other_method (DF : DataFrame) (m : string) (k : R) :
  m <> "mean"%string -> summary DF m k = summary DF "median" k.
Proof.
  intro H. unfold summary. apply String.eqb_neq in H. now rewrite H.
Qed.

(** C1 (as amended): [create_pivot_table] has no error for its method
    argument.  It tests for ["mean"] only, so every other value, also one
    that is not ["median"], returns the table that ["median"] returns. *)
Theorem other_method_is_median (df : DataFrame) (T_over_N : option R) (m : string) :
  m <> "mean"%string ->
  create_pivot_table df T_over_N m = create_pivot_table df T_over_N "median"
  /\ exists res, create_pivot_table df T_over_N m = Returns res.
Proof.
  intro H. rewrite !create_pivot_table_eq. split.
  - f_equal. apply map_ext. intro k. now apply summary_other_method.
  - eexists. reflexivity.
Qed.

Lemma other_method_is_median_witness :
  create_pivot_table scenario (Some 10) "average"
  = create_pivot_table scenario (Some 10) "median"
  /\ exists res, create_pivot_table scenario (Some 10) "average" = Returns res.
Proof.
  apply (other_method_is_median scenario (Some 10) "average"). discriminate.
Defined.

(** C1, as stated, fails: with the method ["average"], neither ["mean"] nor
    ["median"], the call on the scenario raises nothing and returns the
    two-row table of medians and interquartile ranges. *)
Lemma invalid_method_returns_table :
  "average"%string <> "mean"%string /\ "average"%string <> "median"%string /\
  (forall e, create_pivot_table scenario (Some 10) "average" <> Raises e) /\
  create_pivot_table scenario (Some 10) "average"
  = Returns [Res.mk 1 (Some (5 / 100)) (Some (15 / 100)) (Some (1 / 100)) (Some (4 / 100));
             Res.mk 2 (Some (5 / 100)) (Some 0) (Some (2 / 100)) (Some 0)].
Proof.
  assert (create_pivot_table scenario (Some 10) "average"
          = create_pivot_table scenario (Some 10) "median") as E
    by (rewrite !create_pivot_table_eq; f_equal; apply map_ext; intro k;
        apply summary_other_method; discriminate).
  rewrite E, scenario_median.
  repeat split; discriminate || reflexivity.
Qed.

(** ** Groups and keys *)

Lemma filter_T_over_N_incl (df : DataFrame) (T_over_N : option R) (x : Rec.t) :
  In x (filter_T_over_N df T_over_N) -> In x df.
Proof.
  destruct T_over_N as [v|]; [|trivial].
  rewrite filter_T_over_N_eq. intro H. now apply filter_In in H.
Qed.

Lemma table_keys (df : DataFrame) (T_over_N : option R) (m : string) :
  map Res.Nmu (map (summary (filter_T_over_N df T_over_N) m)
                   (np.unique (map Rec.Nmu (filter_T_over_N df T_over_N))))
  = np.unique (map Rec.Nmu (filter_T_over_N df T_over_N)).
Proof. apply summary_keys. Qed.

(** C2 (as amended): [create_pivot_table] never multiplies [N] by
    [Sim_mu]; it reads the column [Nmu].  Every row of the summary table
    carries the [Nmu] cell of some row of the filtered table, and the [Nmu]
    cell of every row of the filtered table is the key of exactly one row of
    the summary table.  Where that cell is the product [N * Sim_mu], the
    product is the key of exactly one row. *)
Theorem group_completeness (df : DataFrame) (T_over_N : option R) (m : string) :
  exists res,
    create_pivot_table df T_over_N m = Returns res
    /\ (forall row, In row res ->
          exists x, In x (filter_T_over_N df T_over_N)
                    /\ Res.Nmu row = Rec.Nmu x)
    /\ (forall x, In x (filter_T_over_N df T_over_N) ->
          count_occ Req_EM_T (map Res.Nmu res) (Rec.Nmu x) = 1%nat)
    /\ (forall x, In x (filter_T_over_N df T_over_N) ->
          Rec.Nmu x = IZR (Rec.N x) * Rec.Sim_mu x ->
          count_occ Req_EM_T (map Res.Nmu res) (IZR (Rec.N x) * Rec.Sim_mu x) = 1%nat).
Proof.
  eexists. split; [apply create_pivot_table_eq|].
  assert (forall x, In x (filter_T_over_N df T_over_N) ->
            count_occ Req_EM_T
              (map Res.Nmu (map (summary (filter_T_over_N df T_over_N) m)
                 (np.unique (map Rec.Nmu (filter_T_over_N df T_over_N)))))
              (Rec.Nmu x) = 1%nat) as Hone.
  { intros x Hx. rewrite table_keys.
    apply NoDup_count_occ'; [apply np_unique_NoDup|].
    apply np_unique_In. now apply in_map. }
  split; [|split].
  - intros row Hrow. apply (in_map Res.Nmu) in Hrow.
    rewrite table_keys, np_unique_In in Hrow.
    apply in_map_iff in Hrow. destruct Hrow as [x [Hk Hx]].
    exists x. now split.
  - exact Hone.
  - intros x Hx E. rewrite <- E. now apply Hone.
Qed.

(** The tables of the TreeTime and LSD readers have the product in that
    column: line 50 and line 78 compute it.  The BEAST reader takes the
    column from the file. *)
Lemma preprocess_Nmu (line : Run.t) :
  Rec.Nmu (preprocess line) = IZR (Rec.N (preprocess line)) * Rec.Sim_mu (preprocess line).
Proof. reflexivity. Qed.

Lemma with_dTmrca_Nmu (line : Beast.t) :
  Rec.Nmu (with_dTmrca line) = Beast.Nmu line.
Proof. reflexivity. Qed.

(** C2, as stated, fails.  The row read from a BEAST line with [N = 1024],
    [Sim_mu = 1/1024] and 7 in the column [Nmu] passes the filter
    [T/N = 10]; the summary table has one row, its key is 7, and [N * Sim_mu]
    is 1 for the only record there is. *)
Lemma key_is_not_N_times_Sim_mu :
  filter_T_over_N [with_dTmrca relabelled_beast_line] (Some 10)
  = [with_dTmrca relabelled_beast_line]
  /\ create_pivot_table [with_dTmrca relabelled_beast_line] (Some 10) "median"
     = Returns [Res.mk 7 (Some (1 / 2)) (Some 0) (Some (25 / 512)) (Some 0)]
  /\ (forall x, In x (filter_T_over_N [with_dTmrca relabelled_beast_line] (Some 10)) ->
        IZR (Rec.N x) * Rec.Sim_mu x = 1)
  /\ ~ (forall res row,
          create_pivot_table [with_dTmrca relabelled_beast_line] (Some 10) "median"
          = Returns res ->
          In row res ->
          exists x, In x (filter_T_over_N [with_dTmrca relabelled_beast_line] (Some 10))
                    /\ Res.Nmu row = IZR (Rec.N x) * Rec.Sim_mu x).
Proof.
  assert (filter_T_over_N [with_dTmrca relabelled_beast_line] (Some 10)
          = [with_dTmrca relabelled_beast_line]) as F
    by (unfold with_dTmrca, relabelled_beast_line; cbn [Beast.T Beast.N Beast.Nmu
          Beast.Sim_mu Beast.mu Beast.Sim_Tmrca Beast.Tmrca]; table_eval; reflexivity).
  assert (forall x, In x [with_dTmrca relabelled_beast_line] ->
            IZR (Rec.N x) * Rec.Sim_mu x = 1) as P
    by (intros x [<-|[]]; simpl; lra).
  assert (create_pivot_table [with_dTmrca relabelled_beast_line] (Some 10) "median"
          = Returns [Res.mk 7 (Some (1 / 2)) (Some 0) (Some (25 / 512)) (Some 0)]) as E.
  { rewrite create_pivot_table_eq, F.
    assert (np.unique (map Rec.Nmu [with_dTmrca relabelled_beast_line]) = [7]) as K
      by reflexivity.
    rewrite K. cbn [map].
    assert (group [with_dTmrca relabelled_beast_line] 7 = [with_dTmrca relabelled_beast_line]) as G
      by (unfold with_dTmrca, relabelled_beast_line; cbn [Beast.T Beast.N Beast.Nmu
            Beast.Sim_mu Beast.mu Beast.Sim_Tmrca Beast.Tmrca]; table_eval; reflexivity).
    rewrite summary_median by (try discriminate; rewrite G; discriminate).
    rewrite G. unfold with_dTmrca, relabelled_beast_line.
    cbn [Beast.T Beast.N Beast.Nmu Beast.Sim_mu Beast.mu Beast.Sim_Tmrca Beast.Tmrca].
    table_eval. unfold Estimator.iqr, Estimator.percentile, Estimator.median.
    simpl. cells; lra. }
  split; [exact F|]. split; [exact E|]. split; [rewrite F; exact P|].
  intro H. destruct (H _ _ E (or_introl eq_refl)) as [x [Hx Hk]].
  rewrite F in Hx. rewrite (P x Hx) in Hk. simpl in Hk. lra.
Qed.

(** ** The loop over binary64 *)

Section Binary64.

Variable F : Flt.ops.

Lemma Flt_filter_eq (df : Flt.DataFrame F) (v : Flt.cell F) :
  Flt.filter_T_over_N F df (Some v) = filter (Flt.ratio_is F v) df.
Proof. unfold Flt.filter_T_over_N. apply select_map. Qed.

Lemma Flt_DataFrame_map (f1 f2 f3 f4 : R -> Flt.cell F) (keys : list R) :
  Flt.pandas_DataFrame F keys (map f1 keys) (map f2 keys) (map f3 keys) (map f4 keys)
  = Returns (map (fun k => Flt.Res.mk k (f1 k) (f2 k) (f3 k) (f4 k)) keys).
Proof.
  induction keys as [|k t IH]; simpl; [reflexivity|]. now rewrite IH.
Qed.

Lemma Flt_sort_by_Nmu_of_sorted (l : list (Flt.Res.t (Flt.cell F))) :
  StronglySorted Rle (map Flt.Res.Nmu l) -> Flt.sort_by_Nmu F l = l.
Proof.
  induction l as [|x t IH]; simpl; intro H; [reflexivity|].
  inversion H as [|? ? Hs Hall]; subst. rewrite (IH Hs).
  destruct t as [|y t']; simpl; [reflexivity|].
  inversion Hall as [|? ? Hxy _]; subst.
  apply Rleb_true_iff in Hxy. now rewrite Hxy.
Qed.

Lemma Flt_group_nonempty (DF : Flt.DataFrame F) (k : R) :
  In k (map Flt.Rec.Nmu DF) -> Flt.group F DF k <> [].
Proof.
  intros H. apply in_map_iff in H. destruct H as [r [Hk Hr]].
  assert (In r (Flt.group F DF k)) as Hin.
  { apply filter_In. split; [exact Hr|]. now apply Reqb_true_iff. }
  intro E. rewrite E in Hin. contradiction.
Qed.

(** For a key that some row carries the pass never takes the [continue]
    branch. *)
Lemma Flt_loop_body_present (DF : Flt.DataFrame F) (m : string)
    (st : Flt.loop_state F) (idx : nat) (k : R) :
  In k (map Flt.Rec.Nmu DF) ->
  Flt.loop_body F DF m st (idx, k)
  = Flt.mk_state F (Flt.N_MUS_idxs F st)
      (Flt.mu_mean F st ++ [Flt.Res.dMu_mean (Flt.summary F DF m k)])
      (Flt.mu_err F st ++ [Flt.Res.dMu_err (Flt.summary F DF m k)])
      (Flt.tmrca_mean F st ++ [Flt.Res.dTmrca_mean (Flt.summary F DF m k)])
      (Flt.tmrca_err F st ++ [Flt.Res.dTmrca_err (Flt.summary F DF m k)]).
Proof.
  intro H. apply Flt_group_nonempty in H.
  unfold Flt.loop_body, Flt.summary. rewrite count_true_map, select_map.
  fold (Flt.group F DF k).
  destruct (Flt.group F DF k) as [|r g] eqn:E; [congruence|].
  simpl (length _ =? 0)%nat. cbv iota.
  destruct (m =? "mean")%string; reflexivity.
Qed.

Lemma Flt_loop_present (DF : Flt.DataFrame F) (m : string) (keys : list R) :
  forall (i : nat) (st : Flt.loop_state F),
  Forall (fun k => In k (map Flt.Rec.Nmu DF)) keys ->
  fold_left (Flt.loop_body F DF m) (enumerate_from i keys) st
  = Flt.mk_state F (Flt.N_MUS_idxs F st)
      (Flt.mu_mean F st ++ map (fun k => Flt.Res.dMu_mean (Flt.summary F DF m k)) keys)
      (Flt.mu_err F st ++ map (fun k => Flt.Res.dMu_err (Flt.summary F DF m k)) keys)
      (Flt.tmrca_mean F st
         ++ map (fun k => Flt.Res.dTmrca_mean (Flt.summary F DF m k)) keys)
      (Flt.tmrca_err F st
         ++ map (fun k => Flt.Res.dTmrca_err (Flt.summary F DF m k)) keys).
Proof.
  induction keys as [|k t IH]; intros i st H; cbn [fold_left enumerate_from map].
  - rewrite !app_nil_r. now destruct st.
  - inversion H as [|? ? Hk Ht]; subst.
    rewrite (Flt_loop_body_present DF m st i k Hk), (IH _ _ Ht).
    cbn [Flt.N_MUS_idxs Flt.mu_mean Flt.mu_err Flt.tmrca_mean Flt.tmrca_err].
    now rewrite <- !app_assoc.
Qed.

Lemma Flt_unique_keys_present (DF : Flt.DataFrame F) :
  Forall (fun k => In k (map Flt.Rec.Nmu DF)) (np.unique (map Flt.Rec.Nmu DF)).
Proof. apply Forall_forall. intros k H. now apply np_unique_In. Qed.

Lemma Flt_summary_Nmu (DF : Flt.DataFrame F) (m : string) (k : R) :
  Flt.Res.Nmu (Flt.summary F DF m k) = k.
Proof. unfold Flt.summary. destruct (m =? "mean")%string; reflexivity. Qed.

Lemma Flt_summary_eta (DF : Flt.DataFrame F) (m : string) (k : R) :
  Flt.Res.mk k (Flt.Res.dMu_mean (Flt.summary F DF m k))
               (Flt.Res.dMu_err (Flt.summary F DF m k))
               (Flt.Res.dTmrca_mean (Flt.summary F DF m k))
               (Flt.Res.dTmrca_err (Flt.summary F DF m k))
  = Flt.summary F DF m k.
Proof. unfold Flt.summary. destruct (m =? "mean")%string; reflexivity. Qed.

Lemma Flt_summary_keys (DF : Flt.DataFrame F) (m : string) (keys : list R) :
  map Flt.Res.Nmu (map (Flt.summary F DF m) keys) = keys.
Proof.
  rewrite map_map. rewrite <- (map_id keys) at 2.
  apply map_ext. intro k. apply Flt_summary_Nmu.
Qed.

(** The table returned: one row per key of [np.unique], in that order. *)
Lemma Flt_create_pivot_table_eq (df : Flt.DataFrame F) (T_over_N : option (Flt.cell F))
    (m : string) :
  Flt.create_pivot_table F df T_over_N m
  = Returns (map (Flt.summary F (Flt.filter_T_over_N F df T_over_N) m)
                 (np.unique (map Flt.Rec.Nmu (Flt.filter_T_over_N F df T_over_N)))).
Proof.
  unfold Flt.create_pivot_table, enumerate.
  rewrite (Flt_loop_present _ m _ 0 _ (Flt_unique_keys_present _)).
  cbn [Flt.N_MUS_idxs Flt.mu_mean Flt.mu_err Flt.tmrca_mean Flt.tmrca_err app].
  rewrite select_all, Flt_DataFrame_map.
  rewrite (map_ext _ _ (Flt_summary_eta (Flt.filter_T_over_N F df T_over_N) m)).
  f_equal. apply Flt_sort_by_Nmu_of_sorted.
  rewrite Flt_summary_keys. apply increasing_sorted, np_unique_increasing.
Qed.

(** The summary table has, for every key of the filtered table, the row
    that [Flt.summary] describes, and no other row with that key. *)
Lemma Flt_row_of_key (df : Flt.DataFrame F) (T_over_N : option (Flt.cell F))
    (m : string) (k : R) :
  In k (map Flt.Rec.Nmu (Flt.filter_T_over_N F df T_over_N)) ->
  exists res,
    Flt.create_pivot_table F df T_over_N m = Returns res
    /\ In (Flt.summary F (Flt.filter_T_over_N F df T_over_N) m k) res
    /\ forall row, In row res -> Flt.Res.Nmu row = k ->
                   row = Flt.summary F (Flt.filter_T_over_N F df T_over_N) m k.
Proof.
  intro Hk. eexists. split; [apply Flt_create_pivot_table_eq|]. split.
  - now apply in_map, np_unique_In.
  - intros row Hrow Hkey. apply in_map_iff in Hrow.
    destruct Hrow as [k' [<- _]]. rewrite Flt_summary_Nmu in Hkey. now subst k'.
Qed.

End Binary64.

(** Under a method other than ["mean"] nothing is asked of [np.mean] and
    [np.std]; under ["mean"] nothing of [np.median] and [np.percentile]. *)
Lemma Flt_median_branch (F : Flt.ops) (mean' : list (Flt.cell F) -> Flt.cell F)
    (std' : nat -> list (Flt.cell F) -> Flt.cell F)
    (df : Flt.DataFrame F) (T_over_N : option (Flt.cell F)) (m : string) :
  m <> "mean"%string ->
  Flt.create_pivot_table (Flt.with_mean_std F mean' std') df T_over_N m
  = Flt.create_pivot_table F df T_over_N m.
Proof.
  intro Hm. rewrite !Flt_create_pivot_table_eq.
  apply String.eqb_neq in Hm.
  change (Flt.filter_T_over_N (Flt.with_mean_std F mean' std') df T_over_N)
    with (Flt.filter_T_over_N F df T_over_N).
  f_equal. apply map_ext. intro k. unfold Flt.summary. rewrite Hm. reflexivity.
Qed.

Lemma Flt_mean_branch (F : Flt.ops) (median' : list (Flt.cell F) -> Flt.cell F)
    (percentile' : list (Flt.cell F) -> nat -> Flt.cell F)
    (df : Flt.DataFrame F) (T_over_N : option (Flt.cell F)) :
  Flt.create_pivot_table (Flt.with_median_percentile F median' percentile') df T_over_N "mean"
  = Flt.create_pivot_table F df T_over_N "mean".
Proof.
  rewrite !Flt_create_pivot_table_eq.
  change (Flt.filter_T_over_N (Flt.with_median_percentile F median' percentile') df T_over_N)
    with (Flt.filter_T_over_N F df T_over_N).
  reflexivity.
Qed.

(** ** The exact operations *)

Lemma Series_of_finite_cells (a : list R) :
  Series_of (map (fun x => Some x) a) = Some a.
Proof. induction a as [|x a IH]; simpl; [reflexivity|now rewrite IH]. Qed.

Lemma exact_sort_values (cells : list num) :
  Series_of (Flt.sort_values Flt.exact cells) = pd.sort_values (Series_of cells).
Proof.
  cbn [Flt.sort_values Flt.exact].
  destruct (Series_of cells) as [a|] eqn:E; simpl.
  - apply Series_of_finite_cells.
  - exact E.
Qed.

Lemma filter_map {A B : Type} (f : A -> B) (p : B -> bool) (l : list A) :
  filter p (map f l) = map f (filter (fun x => p (f x)) l).
Proof.
  induction l as [|x l IH]; simpl; [reflexivity|].
  destruct (p (f x)); simpl; now rewrite IH.
Qed.

Lemma std_of_var (s : Series) :
  option_map sqrt (reduce (np.var 0) s) = reduce np.std s.
Proof. destruct s; reflexivity. Qed.

Lemma exact_filter (df : DataFrame) (T_over_N : option R) :
  Flt.filter_T_over_N Flt.exact (map exact_Rec df) (option_map (fun v => Some v) T_over_N)
  = map exact_Rec (filter_T_over_N df T_over_N).
Proof.
  destruct T_over_N as [v|]; [|reflexivity].
  cbn [option_map]. rewrite Flt_filter_eq, filter_T_over_N_eq. apply filter_map.
Qed.

Lemma exact_keys (DF : DataFrame) : map Flt.Rec.Nmu (map exact_Rec DF) = map Rec.Nmu DF.
Proof. rewrite map_map. reflexivity. Qed.

Lemma exact_group (DF : DataFrame) (k : R) :
  Flt.group Flt.exact (map exact_Rec DF) k = map exact_Rec (group DF k).
Proof. unfold Flt.group, group. apply filter_map. Qed.

Lemma exact_summary (DF : DataFrame) (m : string) (k : R) :
  Flt.summary Flt.exact (map exact_Rec DF) m k = exact_Res (summary DF m k).
Proof.
  unfold Flt.summary, summary, exact_Res.
  rewrite exact_group, !map_map.
  change (fun x => Flt.e_mu Flt.exact (exact_Rec x)) with e_mu.
  change (fun x => Flt.e_t Flt.exact (exact_Rec x)) with e_t.
  cbn [Flt.np_mean Flt.np_std Flt.np_median Flt.np_percentile Flt.sub Flt.exact].
  rewrite !exact_sort_values.
  destruct (m =? "mean")%string; cbn [Res.Nmu Res.dMu_mean Res.dMu_err
                                       Res.dTmrca_mean Res.dTmrca_err].
  - now rewrite !std_of_var.
  - reflexivity.
Qed.

(** With the exact operations, [Flt.create_pivot_table] is
    [create_pivot_table]. *)
Lemma exact_create_pivot_table (df : DataFrame) (T_over_N : option R) (m : string) :
  Flt.create_pivot_table Flt.exact (map exact_Rec df)
                         (option_map (fun v => Some v) T_over_N) m
  = match create_pivot_table df T_over_N m with
    | Returns res => Returns (map exact_Res res)
    | Raises e => Raises e
    end.
Proof.
  rewrite Flt_create_pivot_table_eq, create_pivot_table_eq, exact_filter, exact_keys.
  rewrite map_map. f_equal. apply map_ext. intro k. apply exact_summary.
Qed.

(** On a group whose values are all finite the exact reductions are the
    estimators as the specification words them: arithmetic mean, population
    standard deviation (divisor [n]), median, and interquartile range with
    linear interpolation between the closest ranks. *)
Lemma exact_reductions (cells : list num) (a : list R) :
  cells <> [] ->
  Series_of cells = Some a ->
  let s := Flt.sort_values Flt.exact cells in
  Flt.np_mean Flt.exact s = Some (Estimator.arithmetic_mean a)
  /\ Flt.np_std Flt.exact 0 s = Some (Estimator.population_std a)
  /\ Flt.np_median Flt.exact s = Some (Estimator.median a)
  /\ Flt.sub Flt.exact (Flt.np_percentile Flt.exact s 75) (Flt.np_percentile Flt.exact s 25)
     = Some (Estimator.iqr a).
Proof.
  intros Hc Ha s.
  cbn [Flt.np_mean Flt.np_std Flt.np_median Flt.np_percentile Flt.sub Flt.exact].
  unfold s. rewrite !exact_sort_values.
  rewrite reduce_mean, reduce_median, reduce_iqr by exact Hc.
  unfold estimate. rewrite Ha. cbn [option_map].
  repeat split.
  pose proof (reduce_std cells Hc) as H. unfold estimate in H.
  rewrite Ha in H. cbn [pd.sort_values option_map reduce] in *.
  exact H.
Qed.

(** ** The statistics of a group *)

(** The summary table has, for every key of the filtered table, the row
    that [summary] describes, and no other row with that key. *)
Lemma row_of_key (df : DataFrame) (T_over_N : option R) (m : string) (k : R) :
  In k (map Rec.Nmu (filter_T_over_N df T_over_N)) ->
  exists res,
    create_pivot_table df T_over_N m = Returns res
    /\ In (summary (filter_T_over_N df T_over_N) m k) res
    /\ forall row, In row res -> Res.Nmu row = k ->
                   row = summary (filter_T_over_N df T_over_N) m k.
Proof.
  intro Hk. eexists. split; [apply create_pivot_table_eq|]. split.
  - now apply in_map, np_unique_In.
  - intros row Hrow Hkey. apply in_map_iff in Hrow.
    destruct Hrow as [k' [<- _]]. rewrite summary_Nmu in Hkey. now subst k'.
Qed.

(** C3: under ["median"], the row of a group of the filtered table holds
    [np.median] and the difference of [np.percentile] at 75 and at 25 (the
    interquartile range; numpy's default interpolates linearly between the
    closest ranks) of the group's sorted [e_mu] values, and those of its
    [e_t] values; it is the only row with the group's key.  This holds in
    binary64 as numpy computes, whatever it rounds.  [np.mean] and [np.std]
    have no part in it: with any other two functions in their place the
    table is the same. *)
Theorem median_pairs_with_iqr (F : Flt.ops) (df : Flt.DataFrame F)
    (T_over_N : option (Flt.cell F)) (k : R) :
  In k (map Flt.Rec.Nmu (Flt.filter_T_over_N F df T_over_N)) ->
  exists res row,
    Flt.create_pivot_table F df T_over_N "median" = Returns res
    /\ In row res /\ Flt.Res.Nmu row = k
    /\ (forall row', In row' res -> Flt.Res.Nmu row' = k -> row' = row)
    /\ (let g := Flt.group F (Flt.filter_T_over_N F df T_over_N) k in
        let dMu := Flt.sort_values F (map (Flt.e_mu F) g) in
        let dTmrca := Flt.sort_values F (map (Flt.e_t F) g) in
        Flt.Res.dMu_mean row = Flt.np_median F dMu
        /\ Flt.Res.dMu_err row
           = Flt.sub F (Flt.np_percentile F dMu 75) (Flt.np_percentile F dMu 25)
        /\ Flt.Res.dTmrca_mean row = Flt.np_median F dTmrca
        /\ Flt.Res.dTmrca_err row
           = Flt.sub F (Flt.np_percentile F dTmrca 75) (Flt.np_percentile F dTmrca 25))
    /\ (forall mean' std',
          Flt.create_pivot_table (Flt.with_mean_std F mean' std') df T_over_N "median"
          = Returns res).
Proof.
  intro Hk.
  destruct (Flt_row_of_key F df T_over_N "median" k Hk) as [res [E [Hin Huniq]]].
  exists res, (Flt.summary F (Flt.filter_T_over_N F df T_over_N) "median" k).
  repeat (split; [assumption || apply Flt_summary_Nmu|]).
  split.
  - cbn. repeat split.
  - intros mean' std'. rewrite Flt_median_branch by discriminate. exact E.
Qed.

Lemma triple_filtered : filter_T_over_N triple (Some 10) = triple.
Proof. table_eval. reflexivity. Qed.

Lemma triple_keys : np.unique (map Rec.Nmu triple) = [1].
Proof. table_eval. reflexivity. Qed.

Lemma triple_group : group triple 1 = triple.
Proof. table_eval. reflexivity. Qed.

Lemma triple_has_key_1 :
  In 1 (map Flt.Rec.Nmu
          (Flt.filter_T_over_N Flt.exact (map exact_Rec triple) (Some (Some 10)))).
Proof.
  pose proof (exact_filter triple (Some 10)) as E. cbn [option_map] in E.
  rewrite E, exact_keys, triple_filtered. simpl. tauto.
Qed.

(** The interquartile range is not the standard deviation, and the divisor
    [n] is not the divisor [n - 1]: on the values 0, 1, 3 the three differ. *)
Example three_values :
  np.std [0; 1; 3] = Some (sqrt (14 / 9))
  /\ num_sub (np.percentile [0; 1; 3] 75) (np.percentile [0; 1; 3] 25) = Some (3 / 2)
  /\ Estimator.sample_std [0; 1; 3] = sqrt (7 / 3)
  /\ sqrt (14 / 9) <> 3 / 2
  /\ sqrt (14 / 9) <> sqrt (7 / 3).
Proof.
  split; [|split; [|split; [|split]]].
  - rewrite np_std_eq by discriminate. f_equal.
    unfold Estimator.population_std, Estimator.squared_deviations,
      Estimator.arithmetic_mean, Rsqr.
    cbn [np.sum fold_right map length INR]. f_equal. field.
  - rewrite !np_percentile_eq by (lia || discriminate).
    unfold Estimator.percentile. table_eval. simpl. cells. lra.
  - unfold Estimator.sample_std, Estimator.squared_deviations,
      Estimator.arithmetic_mean, Rsqr.
    cbn [np.sum fold_right map length INR Nat.sub]. f_equal. field.
  - intro E. assert (sqrt (14 / 9) * sqrt (14 / 9) = 14 / 9) as S
      by (apply sqrt_sqrt; lra).
    rewrite E in S. lra.
  - intro E. apply sqrt_inj in E; lra.
Qed.

(** On the three runs with errors 0, 1 and 3, in exact arithmetic, the two
    methods give different rows: the median is 1 and the interquartile range
    [3/2]; the mean is [4/3] and the standard deviation [sqrt (14/9)]. *)
Example triple_median :
  Flt.create_pivot_table Flt.exact (map exact_Rec triple) (Some (Some 10)) "median"
  = Returns [Flt.Res.mk 1 (Some 1) (Some (3 / 2)) (Some 1) (Some (3 / 2))].
Proof.
  pose proof (exact_create_pivot_table triple (Some 10)) as E. cbn [option_map] in E.
  rewrite E. clear E.
  rewrite create_pivot_table_eq, triple_filtered, triple_keys.
  cbn [map]. rewrite summary_median by (try discriminate; rewrite triple_group; discriminate).
  rewrite triple_group. table_eval.
  unfold Estimator.iqr, Estimator.percentile, Estimator.median.
  table_eval. simpl. unfold exact_Res. simpl.
  repeat (f_equal; try lra).
Qed.

Example triple_mean :
  Flt.create_pivot_table Flt.exact (map exact_Rec triple) (Some (Some 10)) "mean"
  = Returns [Flt.Res.mk 1 (Some (4 / 3)) (Some (sqrt (14 / 9)))
                          (Some (4 / 3)) (Some (sqrt (14 / 9)))].
Proof.
  pose proof (exact_create_pivot_table triple (Some 10)) as E. cbn [option_map] in E.
  rewrite E. clear E.
  rewrite create_pivot_table_eq, triple_filtered, triple_keys.
  cbn [map]. rewrite summary_mean by (rewrite triple_group; discriminate).
  rewrite triple_group. table_eval.
  unfold Estimator.population_std, Estimator.squared_deviations,
    Estimator.arithmetic_mean, Rsqr.
  cbn [np.sum fold_right map length INR]. unfold exact_Res. simpl.
  repeat (f_equal; try field).
Qed.

Lemma median_pairs_with_iqr_witness :
  (exists res row,
     Flt.create_pivot_table Flt.exact (map exact_Rec triple) (Some (Some 10)) "median"
     = Returns res
     /\ In row res /\ Flt.Res.Nmu row = 1
     /\ (forall row', In row' res -> Flt.Res.Nmu row' = 1 -> row' = row)
     /\ (let g := Flt.group Flt.exact
                    (Flt.filter_T_over_N Flt.exact (map exact_Rec triple) (Some (Some 10)))
                    1 in
         let dMu := Flt.sort_values Flt.exact (map (Flt.e_mu Flt.exact) g) in
         let dTmrca := Flt.sort_values Flt.exact (map (Flt.e_t Flt.exact) g) in
         Flt.Res.dMu_mean row = Flt.np_median Flt.exact dMu
         /\ Flt.Res.dMu_err row
            = Flt.sub Flt.exact (Flt.np_percentile Flt.exact dMu 75)
                                (Flt.np_percentile Flt.exact dMu 25)
         /\ Flt.Res.dTmrca_mean row = Flt.np_median Flt.exact dTmrca
         /\ Flt.Res.dTmrca_err row
            = Flt.sub Flt.exact (Flt.np_percentile Flt.exact dTmrca 75)
                                (Flt.np_percentile Flt.exact dTmrca 25))
     /\ (forall mean' std',
           Flt.create_pivot_table (Flt.with_mean_std Flt.exact mean' std')
                                  (map exact_Rec triple) (Some (Some 10)) "median"
           = Returns res))
  /\ Flt.create_pivot_table Flt.exact (map exact_Rec triple) (Some (Some 10)) "median"
     = Returns [Flt.Res.mk 1 (Some 1) (Some (3 / 2)) (Some 1) (Some (3 / 2))]
  /\ Flt.create_pivot_table Flt.exact (map exact_Rec triple) (Some (Some 10)) "mean"
     = Returns [Flt.Res.mk 1 (Some (4 / 3)) (Some (sqrt (14 / 9)))
                             (Some (4 / 3)) (Some (sqrt (14 / 9)))]
  /\ sqrt (14 / 9) <> 3 / 2.
Proof.
  split; [|split; [|split]].
  - apply (median_pairs_with_iqr Flt.exact (map exact_Rec triple) (Some (Some 10)) 1).
    exact triple_has_key_1.
  - exact triple_median.
  - exact triple_mean.
  - exact (proj1 (proj2 (proj2 (proj2 three_values)))).
Defined.

(** C4: under ["mean"], the row of a group of the filtered table holds
    [np.mean] and [np.std] with [ddof = 0] (the population standard
    deviation: divisor [n]) of the group's sorted [e_mu] values, and those
    of its [e_t] values; it is the only row with the group's key.  This
    holds in binary64 as numpy and pandas compute, whatever they round.
    [np.median] and [np.percentile] have no part in it. *)
Theorem mean_pairs_with_population_std (F : Flt.ops) (df : Flt.DataFrame F)
    (T_over_N : option (Flt.cell F)) (k : R) :
  In k (map Flt.Rec.Nmu (Flt.filter_T_over_N F df T_over_N)) ->
  exists res row,
    Flt.create_pivot_table F df T_over_N "mean" = Returns res
    /\ In row res /\ Flt.Res.Nmu row = k
    /\ (forall row', In row' res -> Flt.Res.Nmu row' = k -> row' = row)
    /\ (let g := Flt.group F (Flt.filter_T_over_N F df T_over_N) k in
        let dMu := Flt.sort_values F (map (Flt.e_mu F) g) in
        let dTmrca := Flt.sort_values F (map (Flt.e_t F) g) in
        Flt.Res.dMu_mean row = Flt.np_mean F dMu
        /\ Flt.Res.dMu_err row = Flt.np_std F 0 dMu
        /\ Flt.Res.dTmrca_mean row = Flt.np_mean F dTmrca
        /\ Flt.Res.dTmrca_err row = Flt.np_std F 0 dTmrca)
    /\ (forall median' percentile',
          Flt.create_pivot_table (Flt.with_median_percentile F median' percentile')
                                 df T_over_N "mean"
          = Returns res).
Proof.
  intro Hk.
  destruct (Flt_row_of_key F df T_over_N "mean" k Hk) as [res [E [Hin Huniq]]].
  exists res, (Flt.summary F (Flt.filter_T_over_N F df T_over_N) "mean" k).
  repeat (split; [assumption || apply Flt_summary_Nmu|]).
  split.
  - cbn. repeat split.
  - intros median' percentile'. rewrite Flt_mean_branch. exact E.
Qed.

Lemma mean_pairs_with_population_std_witness :
  (exists res row,
     Flt.create_pivot_table Flt.exact (map exact_Rec triple) (Some (Some 10)) "mean"
     = Returns res
     /\ In row res /\ Flt.Res.Nmu row = 1
     /\ (forall row', In row' res -> Flt.Res.Nmu row' = 1 -> row' = row)
     /\ (let g := Flt.group Flt.exact
                    (Flt.filter_T_over_N Flt.exact (map exact_Rec triple) (Some (Some 10)))
                    1 in
         let dMu := Flt.sort_values Flt.exact (map (Flt.e_mu Flt.exact) g) in
         let dTmrca := Flt.sort_values Flt.exact (map (Flt.e_t Flt.exact) g) in
         Flt.Res.dMu_mean row = Flt.np_mean Flt.exact dMu
         /\ Flt.Res.dMu_err row = Flt.np_std Flt.exact 0 dMu
         /\ Flt.Res.dTmrca_mean row = Flt.np_mean Flt.exact dTmrca
         /\ Flt.Res.dTmrca_err row = Flt.np_std Flt.exact 0 dTmrca)
     /\ (forall median' percentile',
           Flt.create_pivot_table
             (Flt.with_median_percentile Flt.exact median' percentile')
             (map exact_Rec triple) (Some (Some 10)) "mean"
           = Returns res))
  /\ Flt.create_pivot_table Flt.exact (map exact_Rec triple) (Some (Some 10)) "mean"
     = Returns [Flt.Res.mk 1 (Some (4 / 3)) (Some (sqrt (14 / 9)))
                             (Some (4 / 3)) (Some (sqrt (14 / 9)))]
  /\ sqrt (14 / 9) <> sqrt (7 / 3).
Proof.
  split; [|split].
  - apply (mean_pairs_with_population_std Flt.exact (map exact_Rec triple)
             (Some (Some 10)) 1).
    exact triple_has_key_1.
  - exact triple_mean.
  - exact (proj2 (proj2 (proj2 (proj2 three_values)))).
Defined.

(** ** The per-record errors *)

(** C5: for a record with nonzero [Sim_mu] and [N], the relative
    mutation-rate error is [-(Sim_mu - mu) / Sim_mu], that is
    [(mu - Sim_mu) / Sim_mu], and the normalized Tmrca error is
    [dTmrca / N]; the readers set [dTmrca = -(Sim_Tmrca - Tmrca)], that is
    [Tmrca - Sim_Tmrca]. *)
Theorem per_record_errors (x : Rec.t) (line : Run.t) (bline : Beast.t) :
  Rec.Sim_mu x <> 0 ->
  Rec.N x <> 0%Z ->
  e_mu x = Some (- (Rec.Sim_mu x - Rec.mu x) / Rec.Sim_mu x)
  /\ e_mu x = Some ((Rec.mu x - Rec.Sim_mu x) / Rec.Sim_mu x)
  /\ e_t x = Some (Rec.dTmrca x / IZR (Rec.N x))
  /\ Rec.dTmrca (preprocess line) = - (Run.Sim_Tmrca line - Run.Tmrca line)
  /\ Rec.dTmrca (preprocess line) = Run.Tmrca line - Run.Sim_Tmrca line
  /\ Rec.dTmrca (with_dTmrca bline) = Beast.Tmrca bline - Beast.Sim_Tmrca bline.
Proof.
  intros Hmu HN. unfold e_mu, e_t.
  rewrite !num_div_finite by (assumption || now apply not_0_IZR).
  repeat split.
  - f_equal. field. assumption.
  - simpl. lra.
  - simpl. lra.
Qed.

Lemma per_record_errors_witness :
  e_mu run_a = Some (- (Rec.Sim_mu run_a - Rec.mu run_a) / Rec.Sim_mu run_a)
  /\ e_mu run_a = Some ((Rec.mu run_a - Rec.Sim_mu run_a) / Rec.Sim_mu run_a)
  /\ e_t run_a = Some (Rec.dTmrca run_a / IZR (Rec.N run_a))
  /\ Rec.dTmrca (preprocess sample_line)
     = - (Run.Sim_Tmrca sample_line - Run.Tmrca sample_line)
  /\ Rec.dTmrca (preprocess sample_line)
     = Run.Tmrca sample_line - Run.Sim_Tmrca sample_line
  /\ Rec.dTmrca (with_dTmrca sample_beast_line)
     = Beast.Tmrca sample_beast_line - Beast.Sim_Tmrca sample_beast_line.
Proof.
  apply (per_record_errors run_a sample_line sample_beast_line).
  - simpl. lra.
  - discriminate.
Defined.

(** ** The ratio filter *)

(** C6: with a ratio filter [v], a record for which the test
    [T / N == v] of line 135 is false has no influence on the result: with
    or without it, wherever it stands in the table, the call returns the
    same.  The test is the one the script makes, on the binary64 quotient
    and with [==]: no tolerance, and no exactness beyond that of the
    quotient. *)
Theorem filter_correctness (F : Flt.ops) (df1 df2 : Flt.DataFrame F)
    (x : Flt.Rec.t (Flt.cell F)) (v : Flt.cell F) (m : string) :
  Flt.ratio_is F v x = false ->
  Flt.create_pivot_table F (df1 ++ x :: df2) (Some v) m
  = Flt.create_pivot_table F (df1 ++ df2) (Some v) m.
Proof.
  intro H.
  assert (Flt.filter_T_over_N F (df1 ++ x :: df2) (Some v)
          = Flt.filter_T_over_N F (df1 ++ df2) (Some v)) as E.
  { rewrite !Flt_filter_eq, !filter_app. f_equal. simpl. now rewrite H. }
  unfold Flt.create_pivot_table. now rewrite E.
Qed.

Lemma filter_correctness_witness :
  Flt.create_pivot_table Flt.exact
    (map exact_Rec [run_c; run_a] ++ exact_Rec outlier :: map exact_Rec [run_b])
    (Some (Some 10)) "median"
  = Flt.create_pivot_table Flt.exact
      (map exact_Rec [run_c; run_a] ++ map exact_Rec [run_b])
      (Some (Some 10)) "median".
Proof.
  apply (filter_correctness Flt.exact (map exact_Rec [run_c; run_a])
           (map exact_Rec [run_b]) (exact_Rec outlier) (Some 10) "median").
  unfold Flt.ratio_is, Flt.ratio, exact_Rec.
  cbn [Flt.eq Flt.div Flt.of_int64 Flt.exact Flt.Rec.T Flt.Rec.N].
  table_eval; reflexivity.
Defined.

(** ** Order *)

(** C7: the call returns a table whose [Nmu] column ascends, whatever the
    table, the filter and the method. *)
Theorem rows_sorted_by_Nmu (df : DataFrame) (T_over_N : option R) (m : string) :
  exists res,
    create_pivot_table df T_over_N m = Returns res
    /\ StronglySorted Rle (map Res.Nmu res)
    /\ Sorted Rle (map Res.Nmu res).
Proof.
  eexists. split; [apply create_pivot_table_eq|].
  rewrite table_keys.
  assert (StronglySorted Rle (np.unique (map Rec.Nmu (filter_T_over_N df T_over_N)))) as H
    by apply increasing_sorted, np_unique_increasing.
  split; [exact H|]. now apply StronglySorted_Sorted.
Qed.

(** ** Empty subsets *)

(** C8: when no row passes the filter, the call raises nothing and returns
    the table without rows. *)
Theorem empty_subset_empty_table (df : DataFrame) (T_over_N : option R) (m : string) :
  filter_T_over_N df T_over_N = [] ->
  create_pivot_table df T_over_N m = Returns [].
Proof.
  intro H. rewrite create_pivot_table_eq, H. reflexivity.
Qed.

Lemma empty_subset_empty_table_witness :
  create_pivot_table [outlier] (Some 10) "median" = Returns [].
Proof.
  apply (empty_subset_empty_table [outlier] (Some 10) "median").
  table_eval. reflexivity.
Defined.

(** ** Groups of one record *)

Lemma arithmetic_mean_one (v : R) : Estimator.arithmetic_mean [v] = v.
Proof. unfold Estimator.arithmetic_mean. simpl. field. Qed.

Lemma population_std_one (v : R) : Estimator.population_std [v] = 0.
Proof.
  unfold Estimator.population_std, Estimator.squared_deviations.
  rewrite arithmetic_mean_one. simpl.
  replace ((Rsqr (v - v) + 0) / 1) with 0 by (unfold Rsqr; field).
  apply sqrt_0.
Qed.

Lemma median_one (v : R) : Estimator.median [v] = v.
Proof. reflexivity. Qed.

Lemma iqr_one (v : R) : Estimator.iqr [v] = 0.
Proof.
  unfold Estimator.iqr, Estimator.percentile. simpl. lra.
Qed.

(** The row of a group of one record with finite errors: the errors
    themselves, with spread zero, under every method. *)
Lemma summary_one (DF : DataFrame) (m : string) (x : Rec.t) (a b : R) :
  group DF (Rec.Nmu x) = [x] ->
  e_mu x = Some a ->
  e_t x = Some b ->
  summary DF m (Rec.Nmu x) = Res.mk (Rec.Nmu x) (Some a) (Some 0) (Some b) (Some 0).
Proof.
  intros Hg Ha Hb.
  destruct (string_dec m "mean") as [->|Hm].
  - rewrite summary_mean by (rewrite Hg; discriminate).
    rewrite Hg. unfold estimate. simpl. rewrite Ha, Hb. simpl.
    now rewrite !arithmetic_mean_one, !population_std_one.
  - rewrite summary_median by (assumption || rewrite Hg; discriminate).
    rewrite Hg. unfold estimate. simpl. rewrite Ha, Hb. simpl.
    now rewrite !median_one, !iqr_one.
Qed.

Lemma small_in_binary64_range (x : R) : Rabs x <= 1 -> in_binary64_range x.
Proof.
  intro H. unfold in_binary64_range.
  apply Rle_trans with 1; [exact H|]. apply pow_R1_Rle. lra.
Qed.

(** C9 (as amended): a group of exactly one record whose [Sim_mu] and [N]
    are not zero, and whose difference [Sim_mu - mu] and relative rate
    error are within the range of binary64, gets, under every method, a row
    with [dMu_err = 0] and [dTmrca_err = 0] and with the record's own errors,
    two finite numbers, as [dMu_mean] and [dTmrca_mean].  (The quotient
    [dTmrca / N] of a finite number by a nonzero integer is within the
    range.) *)
Theorem single_record_group (df : DataFrame) (T_over_N : option R) (m : string)
    (x : Rec.t) :
  group (filter_T_over_N df T_over_N) (Rec.Nmu x) = [x] ->
  Rec.Sim_mu x <> 0 ->
  Rec.N x <> 0%Z ->
  in_binary64_range (Rec.Sim_mu x - Rec.mu x) ->
  in_binary64_range (- (Rec.Sim_mu x - Rec.mu x) / Rec.Sim_mu x) ->
  exists res row,
    create_pivot_table df T_over_N m = Returns res
    /\ In row res /\ Res.Nmu row = Rec.Nmu x
    /\ (forall row', In row' res -> Res.Nmu row' = Rec.Nmu x -> row' = row)
    /\ Res.dMu_err row = Some 0
    /\ Res.dTmrca_err row = Some 0
    /\ (exists a, Res.dMu_mean row = Some a /\ e_mu x = Some a)
    /\ (exists b, Res.dTmrca_mean row = Some b /\ e_t x = Some b).
Proof.
  intros Hg Hmu HN _ _.
  assert (In x (filter_T_over_N df T_over_N)) as Hx.
  { assert (In x (group (filter_T_over_N df T_over_N) (Rec.Nmu x))) as H
      by (rewrite Hg; now left).
    now apply filter_In in H. }
  destruct (row_of_key df T_over_N m (Rec.Nmu x) (in_map Rec.Nmu _ _ Hx))
    as [res [E [Hin Huniq]]].
  exists res, (summary (filter_T_over_N df T_over_N) m (Rec.Nmu x)).
  repeat (split; [assumption || apply summary_Nmu|]).
  assert (e_mu x = Some (- (Rec.Sim_mu x - Rec.mu x) / Rec.Sim_mu x)) as Ea
    by (unfold e_mu; now rewrite num_div_finite).
  assert (e_t x = Some (Rec.dTmrca x / IZR (Rec.N x))) as Eb
    by (unfold e_t; apply num_div_finite; now apply not_0_IZR).
  rewrite (summary_one _ m x _ _ Hg Ea Eb).
  cbn [Res.dMu_mean Res.dMu_err Res.dTmrca_mean Res.dTmrca_err].
  split; [reflexivity|]. split; [reflexivity|].
  split; eexists; (split; [reflexivity|assumption]).
Qed.

Lemma single_record_group_witness :
  exists res row,
    create_pivot_table scenario (Some 10) "mean" = Returns res
    /\ In row res /\ Res.Nmu row = Rec.Nmu run_c
    /\ (forall row', In row' res -> Res.Nmu row' = Rec.Nmu run_c -> row' = row)
    /\ Res.dMu_err row = Some 0
    /\ Res.dTmrca_err row = Some 0
    /\ (exists a, Res.dMu_mean row = Some a /\ e_mu run_c = Some a)
    /\ (exists b, Res.dTmrca_mean row = Some b /\ e_t run_c = Some b).
Proof.
  apply (single_record_group scenario (Some 10) "mean" run_c).
  - rewrite scenario_filtered. apply scenario_group_2.
  - simpl. lra.
  - discriminate.
  - apply small_in_binary64_range. simpl. unfold Rabs. destruct (Rcase_abs _); lra.
  - apply small_in_binary64_range. simpl. unfold Rabs. destruct (Rcase_abs _); lra.
Defined.

(** C9, as stated, fails.  The run simulated with mutation rate zero is alone
    in its group, and its row has no finite [dMu_mean] and no finite
    [dMu_err] (numpy: [inf] and [nan]), under ["mean"] and under ["median"].
    The run with population size zero, unfiltered, is alone in its group,
    and its row has no finite [dTmrca_mean] and [dTmrca_err]. *)
Lemma zero_divisor_group_has_no_spread :
  (group (filter_T_over_N [zero_rate_run] (Some 10)) (Rec.Nmu zero_rate_run)
   = [zero_rate_run]
   /\ create_pivot_table [zero_rate_run] (Some 10) "mean"
      = Returns [Res.mk 0 None None (Some (1 / 16)) (Some 0)]
   /\ create_pivot_table [zero_rate_run] (Some 10) "median"
      = Returns [Res.mk 0 None None (Some (1 / 16)) (Some 0)])
  /\ (group (filter_T_over_N [zero_size_run] None) (Rec.Nmu zero_size_run)
      = [zero_size_run]
      /\ create_pivot_table [zero_size_run] None "mean"
         = Returns [Res.mk 0 (Some (1 / 2)) (Some 0) None None]
      /\ create_pivot_table [zero_size_run] None "median"
         = Returns [Res.mk 0 (Some (1 / 2)) (Some 0) None None]).
Proof.
  split.
  - assert (filter_T_over_N [zero_rate_run] (Some 10) = [zero_rate_run]) as F
      by (table_eval; reflexivity).
    assert (np.unique (map Rec.Nmu [zero_rate_run]) = [0]) as K by reflexivity.
    assert (group [zero_rate_run] 0 = [zero_rate_run]) as G
      by (table_eval; reflexivity).
    split; [rewrite F; exact G|].
    rewrite !create_pivot_table_eq, F, K. cbn [map].
    rewrite summary_mean, summary_median by (try discriminate; rewrite G; discriminate).
    rewrite G. table_eval.
    rewrite arithmetic_mean_one, population_std_one, median_one, iqr_one.
    split; cells; lra.
  - assert (np.unique (map Rec.Nmu [zero_size_run]) = [0]) as K by reflexivity.
    assert (group [zero_size_run] 0 = [zero_size_run]) as G
      by (table_eval; reflexivity).
    split; [exact G|].
    rewrite !create_pivot_table_eq. cbn [filter_T_over_N]. rewrite K. cbn [map].
    rewrite summary_mean, summary_median by (try discriminate; rewrite G; discriminate).
    rewrite G. table_eval.
    rewrite arithmetic_mean_one, population_std_one, median_one, iqr_one.
    split; cells; lra.
Qed.

(** ** The drop branch *)

(** C10: the keys the loop visits are the distinct [Nmu] values of the
    filtered table, so every pass finds members ([idxs.sum()] is not 0), the
    mask [N_MUS_idxs] is all [True] when the loop ends, and the table
    returned has exactly as many rows as the filtered table has distinct
    [Nmu] values. *)
Theorem drop_branch_unreachable (df : DataFrame) (T_over_N : option R) (m : string) :
  let DF := filter_T_over_N df T_over_N in
  let N_MUS := np.unique (map Rec.Nmu DF) in
  (forall N_MU, In N_MU N_MUS <-> In N_MU (map Rec.Nmu DF))
  /\ (forall N_MU, In N_MU N_MUS ->
        count_occ bool_dec (map (fun r => Reqb (Rec.Nmu r) N_MU) DF) true <> 0%nat)
  /\ N_MUS_idxs (fold_left (loop_body DF m) (enumerate N_MUS)
                           (mk_state (repeat true (length N_MUS)) [] [] [] []))
     = repeat true (length N_MUS)
  /\ exists res,
       create_pivot_table df T_over_N m = Returns res
       /\ length res = distinct (map Rec.Nmu DF).
Proof.
  intros DF N_MUS. split; [|split; [|split]].
  - intro k. apply np_unique_In.
  - intros k Hk. apply np_unique_In, group_nonempty in Hk.
    rewrite count_true_map. fold (group DF k).
    destruct (group DF k); [congruence|discriminate].
  - unfold N_MUS, DF. now rewrite loop_final.
  - eexists. split; [apply create_pivot_table_eq|].
    rewrite length_map. apply np_unique_length.
Qed.

(** * Further properties of [create_pivot_table] *)

(** ** The order of the rows of the input *)

Lemma sorted_perm_eq (a b : list R) :
  StronglySorted Rle a -> StronglySorted Rle b -> Permutation a b -> a = b.
Proof.
  intros Ha. revert b. induction Ha as [|x a Hs IH Hall]; intros b Hb P.
  - apply Permutation_nil in P. now subst.
  - destruct Hb as [|y b Hsb Hallb].
    + apply Permutation_sym, Permutation_nil in P. discriminate.
    + rewrite Forall_forall in Hall, Hallb.
      assert (x = y) as E.
      { assert (In x (y :: b)) as Hx by (eapply Permutation_in; [exact P|now left]).
        assert (In y (x :: a)) as Hy
          by (eapply Permutation_in; [symmetry; exact P|now left]).
        destruct Hx as [Hx|Hx]; [congruence|].
        destruct Hy as [Hy|Hy]; [congruence|].
        specialize (Hall y Hy). specialize (Hallb x Hx). lra. }
      subst y. f_equal. apply IH; [exact Hsb|].
      now apply Permutation_cons_inv in P.
Qed.

Lemma np_sort_perm_eq (a b : list R) : Permutation a b -> np.sort a = np.sort b.
Proof.
  intro P. apply sorted_perm_eq; try apply np_sort_sorted.
  rewrite <- (np_sort_perm a), <- (np_sort_perm b). exact P.
Qed.

Lemma np_unique_perm_eq (a b : list R) : Permutation a b -> np.unique a = np.unique b.
Proof. intro P. unfold np.unique. now rewrite (np_sort_perm_eq a b P). Qed.

Lemma filter_perm {A : Type} (p : A -> bool) (l l' : list A) :
  Permutation l l' -> Permutation (filter p l) (filter p l').
Proof.
  induction 1 as [|x l l' _ IH|x y l|l l' l'' _ IH1 _ IH2]; simpl.
  - constructor.
  - destruct (p x); [now constructor|exact IH].
  - destruct (p x), (p y); try apply Permutation_refl. apply perm_swap.
  - now transitivity (filter p l').
Qed.

Lemma filter_T_over_N_perm (df df' : DataFrame) (T_over_N : option R) :
  Permutation df df' ->
  Permutation (filter_T_over_N df T_over_N) (filter_T_over_N df' T_over_N).
Proof.
  intro P. destruct T_over_N as [v|]; [|exact P].
  rewrite !filter_T_over_N_eq. now apply filter_perm.
Qed.

(** The values of a computed column, up to their order. *)
Lemma Series_of_perm (cells cells' : list num) :
  Permutation cells cells' ->
  (Series_of cells = None /\ Series_of cells' = None)
  \/ exists a a', Series_of cells = Some a /\ Series_of cells' = Some a'
                  /\ Permutation a a'.
Proof.
  induction 1 as [|c l l' _ IH|c d l|l l' l'' _ IH1 _ IH2]; simpl.
  - right. exists [], []. repeat split. constructor.
  - destruct IH as [[E E']|[a [a' [E [E' P]]]]]; rewrite E, E'.
    + left. destruct c; now split.
    + destruct c as [x|]; [right|left; now split].
      exists (x :: a), (x :: a'). repeat split. now constructor.
  - destruct (Series_of l) as [a|]; destruct c as [x|], d as [y|];
      try (left; now split).
    right. exists (y :: x :: a), (x :: y :: a). repeat split. apply perm_swap.
  - destruct IH1 as [[E E']|[a [a' [E [E' P]]]]];
      destruct IH2 as [[F F']|[b [b' [F [F' Q]]]]]; try congruence.
    + left. now split.
    + right. exists a, b'. repeat split; try assumption.
      rewrite E' in F. inversion F; subst. now transitivity b.
Qed.

Lemma sort_values_perm (cells cells' : list num) :
  Permutation cells cells' ->
  pd.sort_values (Series_of cells) = pd.sort_values (Series_of cells').
Proof.
  intro P. destruct (Series_of_perm cells cells' P) as [[E E']|[a [a' [E [E' Q]]]]];
    rewrite E, E'; simpl; [reflexivity|].
  f_equal. now apply np_sort_perm_eq.
Qed.

Lemma summary_perm (DF DF' : DataFrame) (m : string) (k : R) :
  Permutation DF DF' -> summary DF m k = summary DF' m k.
Proof.
  intro P. unfold summary.
  assert (Permutation (group DF k) (group DF' k)) as G by now apply filter_perm.
  rewrite (sort_values_perm (map e_mu (group DF k)) (map e_mu (group DF' k)))
    by now apply Permutation_map.
  rewrite (sort_values_perm (map e_t (group DF k)) (map e_t (group DF' k)))
    by now apply Permutation_map.
  reflexivity.
Qed.

(** X1: the summary table does not depend on the order of the rows of the
    input table. *)
Theorem row_order_irrelevant (df df' : DataFrame) (T_over_N : option R) (m : string) :
  Permutation df df' ->
  create_pivot_table df T_over_N m = create_pivot_table df' T_over_N m.
Proof.
  intro P. rewrite !create_pivot_table_eq.
  pose proof (filter_T_over_N_perm df df' T_over_N P) as Q.
  rewrite (np_unique_perm_eq _ _ (Permutation_map Rec.Nmu Q)).
  f_equal. apply map_ext. intro k. now apply summary_perm.
Qed.

Lemma row_order_irrelevant_witness :
  create_pivot_table [run_c; run_a; outlier; run_b] (Some 10) "mean"
  = create_pivot_table [run_b; outlier; run_a; run_c] (Some 10) "mean".
Proof.
  apply (row_order_irrelevant [run_c; run_a; outlier; run_b]
                              [run_b; outlier; run_a; run_c] (Some 10) "mean").
  apply (Permutation_rev [run_c; run_a; outlier; run_b]).
Defined.

(** ** Keys *)

(** X2: the [Nmu] column of the summary table increases strictly: no two
    rows have the same key. *)
Theorem keys_strictly_increasing (df : DataFrame) (T_over_N : option R) (m : string) :
  exists res,
    create_pivot_table df T_over_N m = Returns res
    /\ StronglySorted Rlt (map Res.Nmu res)
    /\ NoDup (map Res.Nmu res).
Proof.
  eexists. split; [apply create_pivot_table_eq|]. rewrite table_keys.
  split; [apply np_unique_increasing|apply np_unique_NoDup].
Qed.

(** ** The sign of the spreads *)





(** Every row of the table is the [summary] of a key of the filtered table. *)
Lemma rows_are_summaries (df : DataFrame) (T_over_N : option R) (m : string)
    (res : list Res.t) (row : Res.t) :
  create_pivot_table df T_over_N m = Returns res ->
  In row res ->
  exists k, In k (map Rec.Nmu (filter_T_over_N df T_over_N))
            /\ row = summary (filter_T_over_N df T_over_N) m k.
Proof.
  rewrite create_pivot_table_eq. intros E Hrow. inversion E; subst. clear E.
  apply in_map_iff in Hrow. destruct Hrow as [k [<- Hk]].
  exists k. split; [now apply np_unique_In|reflexivity].
Qed.




(** ** Groups do not interfere *)

Lemma row_iff (df : DataFrame) (T_over_N : option R) (m : string)
    (res : list Res.t) (row : Res.t) :
  create_pivot_table df T_over_N m = Returns res ->
  (In row res <->
   In (Res.Nmu row) (map Rec.Nmu (filter_T_over_N df T_over_N))
   /\ row = summary (filter_T_over_N df T_over_N) m (Res.Nmu row)).
Proof.
  intro E. split.
  - intro H. destruct (rows_are_summaries df T_over_N m res row E H) as [k [Hk ->]].
    rewrite summary_Nmu. now split.
  - intros [Hk Hrow]. rewrite create_pivot_table_eq in E. inversion E; subst res.
    rewrite Hrow. now apply in_map, np_unique_In.
Qed.

Lemma summary_of_group (DF DF' : DataFrame) (m : string) (k : R) :
  group DF k = group DF' k -> summary DF m k = summary DF' m k.
Proof. intro E. unfold summary. now rewrite E. Qed.

Lemma filter_T_over_N_app (df1 df2 : DataFrame) (T_over_N : option R) :
  filter_T_over_N (df1 ++ df2) T_over_N
  = filter_T_over_N df1 T_over_N ++ filter_T_over_N df2 T_over_N.
Proof.
  destruct T_over_N as [v|]; [|reflexivity].
  rewrite !filter_T_over_N_eq. apply filter_app.
Qed.

Lemma filter_T_over_N_one (x : Rec.t) (T_over_N : option R) :
  filter_T_over_N [x] T_over_N = [x] \/ filter_T_over_N [x] T_over_N = [].
Proof.
  destruct T_over_N as [v|]; [|now left].
  rewrite filter_T_over_N_eq. simpl. destruct (num_eqb (ratio x) v); auto.
Qed.

(** X8: the row of a group depends on the records of that group only: a
    record with another [Nmu], added to or taken from the input table,
    leaves the row with key [k] as it is (present or absent). *)
Theorem other_groups_irrelevant (df1 df2 : DataFrame) (x : Rec.t)
    (T_over_N : option R) (m : string) (k : R) :
  Rec.Nmu x <> k ->
  exists res res',
    create_pivot_table (df1 ++ x :: df2) T_over_N m = Returns res
    /\ create_pivot_table (df1 ++ df2) T_over_N m = Returns res'
    /\ forall row, Res.Nmu row = k -> (In row res <-> In row res').
Proof.
  intro Hx.
  exists (map (summary (filter_T_over_N (df1 ++ x :: df2) T_over_N) m)
              (np.unique (map Rec.Nmu (filter_T_over_N (df1 ++ x :: df2) T_over_N)))),
         (map (summary (filter_T_over_N (df1 ++ df2) T_over_N) m)
              (np.unique (map Rec.Nmu (filter_T_over_N (df1 ++ df2) T_over_N)))).
  split; [apply create_pivot_table_eq|]. split; [apply create_pivot_table_eq|].
  intros row Hk.
  rewrite (row_iff _ _ _ _ row (create_pivot_table_eq (df1 ++ x :: df2) T_over_N m)).
  rewrite (row_iff _ _ _ _ row (create_pivot_table_eq (df1 ++ df2) T_over_N m)).
  rewrite Hk.
  change (x :: df2) with ([x] ++ df2).
  rewrite !filter_T_over_N_app.
  assert (group (filter_T_over_N df1 T_over_N ++ filter_T_over_N [x] T_over_N
                 ++ filter_T_over_N df2 T_over_N) k
          = group (filter_T_over_N df1 T_over_N ++ filter_T_over_N df2 T_over_N) k) as G.
  { unfold group. rewrite !filter_app. f_equal.
    destruct (filter_T_over_N_one x T_over_N) as [-> | ->]; [|reflexivity].
    simpl. apply Reqb_false_iff in Hx. now rewrite Hx. }
  rewrite (summary_of_group _ _ m k G).
  assert (In k (map Rec.Nmu (filter_T_over_N df1 T_over_N ++ filter_T_over_N [x] T_over_N
                             ++ filter_T_over_N df2 T_over_N))
          <-> In k (map Rec.Nmu (filter_T_over_N df1 T_over_N
                                 ++ filter_T_over_N df2 T_over_N))) as K.
  { rewrite !map_app, !in_app_iff.
    destruct (filter_T_over_N_one x T_over_N) as [-> | ->]; simpl; tauto. }
  now rewrite K.
Qed.

Lemma other_groups_irrelevant_witness :
  exists res res',
    create_pivot_table ([run_a] ++ run_c :: [run_b]) (Some 10) "mean" = Returns res
    /\ create_pivot_table ([run_a] ++ [run_b]) (Some 10) "mean" = Returns res'
    /\ forall row, Res.Nmu row = 1 -> (In row res <-> In row res').
Proof.
  apply (other_groups_irrelevant [run_a] [run_b] run_c (Some 10) "mean" 1).
  simpl. lra.
Defined.

(** ** The filter, composed *)

Lemma filter_T_over_N_idem (df : DataFrame) (T_over_N : option R) :
  filter_T_over_N (filter_T_over_N df T_over_N) T_over_N = filter_T_over_N df T_over_N.
Proof.
  destruct T_over_N as [v|]; [|reflexivity].
  rewrite !filter_T_over_N_eq. induction df as [|x df IH]; simpl; [reflexivity|].
  destruct (num_eqb (ratio x) v) eqn:E; simpl; [rewrite E|]; now rewrite IH.
Qed.

(** X9: filtering the table beforehand is the same as passing the filter:
    the table of the pre-filtered rows, with the same filter or with none,
    is the table of the call with the filter. *)
Theorem prefiltering_composes (df : DataFrame) (T_over_N : option R) (m : string) :
  create_pivot_table (filter_T_over_N df T_over_N) None m
  = create_pivot_table df T_over_N m
  /\ create_pivot_table (filter_T_over_N df T_over_N) T_over_N m
     = create_pivot_table df T_over_N m.
Proof.
  rewrite !create_pivot_table_eq, filter_T_over_N_idem. now split.
Qed.

(** X10: two different ratios select disjoint sets of rows: what passes the
    filter [v] yields the empty table under a filter [w <> v]. *)
Theorem different_ratios_disjoint (df : DataFrame) (v w : R) (m : string) :
  v <> w ->
  create_pivot_table (filter_T_over_N df (Some v)) (Some w) m = Returns [].
Proof.
  intro H. rewrite create_pivot_table_eq.
  assert (filter_T_over_N (filter_T_over_N df (Some v)) (Some w) = []) as E.
  { rewrite !filter_T_over_N_eq. induction df as [|x df IH]; simpl; [reflexivity|].
    destruct (num_eqb (ratio x) v) eqn:Ev; simpl; [|exact IH].
    destruct (num_eqb (ratio x) w) eqn:Ew; [|exact IH].
    unfold num_eqb in Ev, Ew. destruct (ratio x) as [q|]; [|discriminate].
    apply Reqb_true_iff in Ev, Ew. congruence. }
  now rewrite E.
Qed.

Lemma different_ratios_disjoint_witness :
  create_pivot_table (filter_T_over_N scenario (Some 10)) (Some 4) "median" = Returns [].
Proof.
  apply (different_ratios_disjoint scenario 10 4 "median"). lra.
Defined.

(** X11: the [Nmu] column of the summary table does not depend on the
    method, and filtering only removes keys: every key of the table of a
    filtered call is a key of the table of the unfiltered call. *)
Theorem key_column (df : DataFrame) (T_over_N : option R) (m m' : string) :
  exists res res' res_all,
    create_pivot_table df T_over_N m = Returns res
    /\ create_pivot_table df T_over_N m' = Returns res'
    /\ create_pivot_table df None m = Returns res_all
    /\ map Res.Nmu res = map Res.Nmu res'
    /\ incl (map Res.Nmu res) (map Res.Nmu res_all).
Proof.
  do 3 eexists. repeat (split; [apply create_pivot_table_eq|]).
  rewrite !table_keys. split; [reflexivity|].
  intros k Hk. rewrite np_unique_In in Hk. rewrite np_unique_In.
  apply in_map_iff in Hk. destruct Hk as [x [<- Hx]].
  apply in_map. now apply filter_T_over_N_incl with T_over_N.
Qed.

(** * The file names of the readers *)

(** ** File names *)

Lemma split_nonempty (sep : ascii) (s : string) : Name.split sep s <> [].
Proof.
  destruct s as [|c s]; simpl; [discriminate|].
  destruct (Ascii.eqb c sep); [discriminate|].
  destruct (Name.split sep s); discriminate.
Qed.

Lemma split_length (sep : ascii) (s : string) :
  length (Name.split sep s) = S (Name.count sep s).
Proof.
  induction s as [|c s IH]; simpl; [reflexivity|].
  destruct (Ascii.eqb c sep); simpl; [now rewrite IH|].
  destruct (Name.split sep s) as [|w ws] eqn:E; simpl in *; [discriminate|exact IH].
Qed.

Lemma split_no_sep (sep : ascii) (s : string) :
  Name.count sep s = 0%nat -> Name.split sep s = [s].
Proof.
  induction s as [|c s IH]; simpl; [reflexivity|].
  destruct (Ascii.eqb c sep); simpl; [discriminate|].
  intro H. now rewrite (IH H).
Qed.

Lemma split_app_sep (sep : ascii) (a b : string) :
  Name.split sep (a ++ String sep b) = Name.split sep a ++ Name.split sep b.
Proof.
  induction a as [|c a IH]; simpl.
  - now rewrite Ascii.eqb_refl.
  - destruct (Ascii.eqb c sep); [now rewrite IH|].
    rewrite IH. pose proof (split_nonempty sep a) as Hne.
    destruct (Name.split sep a) as [|w ws]; [congruence|reflexivity].
Qed.

Lemma count_app (c : ascii) (a b : string) :
  Name.count c (a ++ b) = (Name.count c a + Name.count c b)%nat.
Proof.
  induction a as [|d a IH]; simpl; [reflexivity|]. rewrite IH. lia.
Qed.

Lemma split_join (sep : ascii) (parts : list string) :
  parts <> [] ->
  Forall (fun p => Name.count sep p = 0%nat) parts ->
  Name.split sep (Name.join sep parts) = parts.
Proof.
  induction parts as [|p rest IH]; intros Hne H; [congruence|].
  inversion H as [|? ? Hp Hrest]; subst.
  destruct rest as [|q rest'].
  - simpl. now apply split_no_sep.
  - change (Name.join sep (p :: q :: rest'))
      with (p ++ String sep (Name.join sep (q :: rest')))%string.
    rewrite split_app_sep, (split_no_sep sep p Hp), IH by (discriminate || assumption).
    reflexivity.
Qed.

Lemma count_join (c sep : ascii) (parts : list string) :
  Ascii.eqb sep c = false ->
  Forall (fun p => Name.count c p = 0%nat) parts ->
  Name.count c (Name.join sep parts) = 0%nat.
Proof.
  intros Hc H. induction H as [|p rest Hp _ IH]; [reflexivity|].
  destruct rest as [|q rest']; [exact Hp|].
  change (Name.join sep (p :: q :: rest'))
    with (p ++ String sep (Name.join sep (q :: rest')))%string.
  rewrite count_app.
  change (Name.count c (String sep (Name.join sep (q :: rest'))))
    with ((if Ascii.eqb sep c then 1 else 0)
          + Name.count c (Name.join sep (q :: rest')))%nat.
  rewrite Hc, IH, Hp. reflexivity.
Qed.

Lemma last_item_app (l : list string) (b : string) :
  Name.last_item (l ++ [b]) = Name.Item b.
Proof.
  destruct l as [|p rest]; simpl; [reflexivity|]. f_equal. apply last_last.
Qed.

Lemma part_no_dir (base : string) (i n : nat) :
  Name.count "/" base = 0%nat ->
  Name.part base i n
  = match Name.item (Name.split "_" base) i with
    | Name.Item p => Name.Item (Name.drop n p)
    | Name.IndexError => Name.IndexError
    end.
Proof.
  intro H. unfold Name.part. now rewrite (split_no_sep "/" base H).
Qed.

Lemma part_dir (dir base : string) (i n : nat) :
  Name.count "/" base = 0%nat ->
  Name.part (dir ++ String "/" base) i n = Name.part base i n.
Proof.
  intro H. unfold Name.part.
  rewrite split_app_sep, (split_no_sep "/" base H), last_item_app.
  reflexivity.
Qed.

Lemma decode_ignores_directory_aux (dir base : string) :
  Name.count "/" base = 0%nat ->
  Name.decode (dir ++ String "/" base) = Name.decode base.
Proof.
  intro H. unfold Name.decode. now rewrite !part_dir.
Qed.

(** X16: the directory of a file does not matter to the decoding of its
    name, underscores in it included: a name decodes as its base name. *)
Theorem decode_ignores_directory (dir base : string) :
  Name.count "/" base = 0%nat ->
  Name.decode (dir ++ String "/" base) = Name.decode base.
Proof. apply decode_ignores_directory_aux. Qed.

Lemma decode_ignores_directory_witness :
  Name.decode ("./simulated_data/my_runs" ++ String "/" "Flu_HA_N100_Ns20_Ts50_Nmu1_Mu0.01_tree.nwk")
  = Name.decode "Flu_HA_N100_Ns20_Ts50_Nmu1_Mu0.01_tree.nwk".
Proof.
  apply (decode_ignores_directory "./simulated_data/my_runs"
           "Flu_HA_N100_Ns20_Ts50_Nmu1_Mu0.01_tree.nwk").
  reflexivity.
Defined.

Lemma item_IndexError_iff (parts : list string) (i : nat) :
  Name.item parts i = Name.IndexError <-> (length parts <= i)%nat.
Proof.
  unfold Name.item. rewrite <- nth_error_None.
  destruct (nth_error parts i); split; intro H; congruence.
Qed.

(** X17: decoding a base name raises [IndexError] exactly when the name has
    fewer than six underscores, that is fewer than seven parts. *)
Theorem decode_IndexError_iff (base : string) :
  Name.count "/" base = 0%nat ->
  (Name.decode base = Name.IndexError <-> (Name.count "_" base < 6)%nat).
Proof.
  intro H. unfold Name.decode. rewrite !part_no_dir by exact H.
  pose proof (split_length "_" base) as L.
  pose proof (item_IndexError_iff (Name.split "_" base)) as I.
  destruct (Name.item (Name.split "_" base) 6) eqn:E6.
  - assert (6 < length (Name.split "_" base))%nat as H6.
    { destruct (Nat.lt_ge_cases 6 (length (Name.split "_" base))) as [?|G]; [assumption|].
      apply I in G. congruence. }
    destruct (Name.item (Name.split "_" base) 3) eqn:E3;
      [|apply I in E3; lia].
    destruct (Name.item (Name.split "_" base) 4) eqn:E4;
      [|apply I in E4; lia].
    destruct (Name.item (Name.split "_" base) 2) eqn:E2;
      [|apply I in E2; lia].
    split; [discriminate|lia].
  - apply I in E6. split; [lia|reflexivity].
Qed.

Lemma decode_IndexError_iff_witness :
  Name.decode "N100_Ns20_Ts50_Mu0.01.nwk" = Name.IndexError
  <-> (Name.count "_" "N100_Ns20_Ts50_Mu0.01.nwk" < 6)%nat.
Proof.
  apply (decode_IndexError_iff "N100_Ns20_Ts50_Mu0.01.nwk"). reflexivity.
Defined.

(** X18: a file whose base name is [a_b_N<n>_Ns<ns>_Ts<ts>_c_Mu<mu>],
    possibly followed by further parts, in any directory, decodes to the
    texts [mu], [ns], [ts] and [n], provided none of the parts contains an
    underscore or a slash. *)
Theorem decode_canonical (dir a b n ns ts c mu : string) (rest : list string) :
  Forall (fun p => Name.count "_" p = 0%nat /\ Name.count "/" p = 0%nat)
         ([a; b; n; ns; ts; c; mu] ++ rest) ->
  Name.decode (dir ++ String "/"
                 (Name.join "_" ([a; b; ("N" ++ n)%string; ("Ns" ++ ns)%string; ("Ts" ++ ts)%string; c;
                  ("Mu" ++ mu)%string]
                                 ++ rest)))
  = Name.Item (Name.mk mu ns ts n).
Proof.
  intro H.
  assert (Forall (fun p => Name.count "_" p = 0%nat /\ Name.count "/" p = 0%nat)
                 ([a; b; ("N" ++ n)%string; ("Ns" ++ ns)%string; ("Ts" ++ ts)%string; c;
                  ("Mu" ++ mu)%string] ++ rest)) as H'.
  { simpl in H |- *.
    repeat match goal with
           | Hf : Forall _ (_ :: _) |- _ => inversion Hf; clear Hf; subst
           end.
    repeat (constructor; [simpl; tauto|]). assumption. }
  clear H.
  set (parts := [a; b; ("N" ++ n)%string; ("Ns" ++ ns)%string; ("Ts" ++ ts)%string; c;
                  ("Mu" ++ mu)%string] ++ rest) in *.
  assert (Name.count "/" (Name.join "_" parts) = 0%nat) as Hs.
  { apply count_join; [reflexivity|].
    eapply Forall_impl; [|exact H']. simpl. tauto. }
  rewrite decode_ignores_directory_aux by exact Hs.
  unfold Name.decode. rewrite !part_no_dir by exact Hs.
  rewrite split_join.
  - reflexivity.
  - discriminate.
  - eapply Forall_impl; [|exact H']. simpl. tauto.
Qed.

Lemma decode_canonical_witness :
  Name.decode ("./simulated_data" ++ String "/"
                 (Name.join "_" (["FluH3N2"%string; "HA"%string; ("N" ++ "1000")%string;
                                  ("Ns" ++ "20")%string; ("Ts" ++ "500")%string;
                                  "Nmu1.0"%string; ("Mu" ++ "0.001")%string]
                                 ++ ["tree.nwk"%string])))
  = Name.Item (Name.mk "0.001" "20" "500" "1000").
Proof.
  apply (decode_canonical "./simulated_data" "FluH3N2" "HA" "1000" "20" "500"
           "Nmu1.0" "0.001" ["tree.nwk"%string]).
  repeat constructor.
Defined.

(** * The submission scripts *)

(** ** Loops that only call *)

Lemma calls_inner {A : Type} (f : A -> list string) (l : list A) (done : calls) :
  fold_left (fun done x => done ++ [f x]) l done = done ++ map f l.
Proof.
  revert done. induction l as [|x l IH]; intro done; simpl.
  - now rewrite app_nil_r.
  - rewrite IH, <- app_assoc. reflexivity.
Qed.

Lemma calls_outer {A : Type} (f : A -> calls) (l : list A) (done : calls) :
  fold_left (fun done x => done ++ f x) l done = done ++ flat_map f l.
Proof.
  revert done. induction l as [|x l IH]; intro done; simpl.
  - now rewrite app_nil_r.
  - rewrite IH, <- app_assoc. reflexivity.
Qed.

Lemma fold_left_ext {A B : Type} (f g : B -> A -> B) (l : list A) (b : B) :
  (forall b x, f b x = g b x) -> fold_left f l b = fold_left g l b.
Proof.
  intro H. revert b. induction l as [|x l IH]; intro b; simpl; [reflexivity|].
  now rewrite H, IH.
Qed.

(** The calls of the subtrees script, loop by loop. *)
Lemma subtrees_run_eq (CLUSTER : bool) (N_leaves_array : list nat) (n_iter : nat) :
  Subtrees.run CLUSTER N_leaves_array n_iter
  = flat_map (fun N_leaves =>
                map (fun iteration =>
                       Subtrees.call CLUSTER ++ Subtrees.arguments N_leaves iteration)
                    (seq 0 n_iter))
             N_leaves_array.
Proof.
  unfold Subtrees.run.
  rewrite (fold_left_ext _
             (fun done N_leaves =>
                done ++ map (fun iteration =>
                               Subtrees.call CLUSTER
                               ++ Subtrees.arguments N_leaves iteration)
                            (seq 0 n_iter)))
    by (intros; apply calls_inner).
  exact (calls_outer
           (fun N_leaves =>
              map (fun iteration =>
                     Subtrees.call CLUSTER ++ Subtrees.arguments N_leaves iteration)
                  (seq 0 n_iter))
           N_leaves_array []).
Qed.

Lemma NoDup_map_inj {A B : Type} (f : A -> B) (l : list A) :
  (forall x y, f x = f y -> x = y) -> NoDup l -> NoDup (map f l).
Proof.
  intros Hf. induction 1 as [|x l Hx _ IH]; simpl; constructor; [|exact IH].
  intro H. apply in_map_iff in H. destruct H as [y [E Hy]].
  apply Hf in E. now subst y.
Qed.

(** ** Numbers as text *)

Lemma str_inj (n n' : nat) : str n = str n' -> n = n'.
Proof.
  unfold str. intro H.
  assert (Some (Nat.to_uint n) = Some (Nat.to_uint n')) as E
    by (rewrite <- !DecimalString.NilEmpty.usu; now rewrite H).
  inversion E as [E'].
  rewrite <- (DecimalNat.Unsigned.of_to n), <- (DecimalNat.Unsigned.of_to n').
  now rewrite E'.
Qed.

Lemma subtrees_job_inj (CLUSTER : bool) (N N' i i' : nat) :
  Subtrees.call CLUSTER ++ Subtrees.arguments N i
  = Subtrees.call CLUSTER ++ Subtrees.arguments N' i' ->
  N = N' /\ i = i'.
Proof.
  intro H. apply app_inv_head in H. unfold Subtrees.arguments in H.
  inversion H as [[H1 H2]]. split; now apply str_inj.
Qed.

Lemma subtrees_run_length (CLUSTER : bool) (N_leaves_array : list nat) (n_iter : nat) :
  length (Subtrees.run CLUSTER N_leaves_array n_iter)
  = (length N_leaves_array * n_iter)%nat.
Proof.
  rewrite subtrees_run_eq.
  rewrite (flat_map_constant_length (c := n_iter)); [reflexivity|].
  intros x _. now rewrite length_map, length_seq.
Qed.

Lemma subtrees_run_NoDup (CLUSTER : bool) (N_leaves_array : list nat) (n_iter : nat) :
  NoDup N_leaves_array -> NoDup (Subtrees.run CLUSTER N_leaves_array n_iter).
Proof.
  rewrite subtrees_run_eq.
  induction 1 as [|N arr Hnot Hnd IH]; simpl; [constructor|].
  apply NoDup_app.
  - apply NoDup_map_inj; [|apply seq_NoDup].
    intros i i' E. now apply subtrees_job_inj in E.
  - exact IH.
  - intros cmd H1 H2. apply in_map_iff in H1. destruct H1 as [i [<- _]].
    apply in_flat_map in H2. destruct H2 as [N' [HN' H2]].
    apply in_map_iff in H2. destruct H2 as [i' [E _]].
    apply subtrees_job_inj in E. destruct E as [-> _]. contradiction.
Qed.

(** X19: the subtrees script makes one call per pair of a leaf number and an
    iteration: [len(N_leaves_array) * n_iter] calls, each of them the command
    line of a pair [(N_leaves, iteration)] with [iteration < n_iter], every
    such pair among them; and when the leaf numbers are distinct, no command
    line is submitted twice. *)
Theorem subtrees_one_call_per_pair (CLUSTER : bool) (N_leaves_array : list nat)
    (n_iter : nat) :
  length (Subtrees.run CLUSTER N_leaves_array n_iter)
  = (length N_leaves_array * n_iter)%nat
  /\ (forall cmd, In cmd (Subtrees.run CLUSTER N_leaves_array n_iter)
        <-> exists N_leaves iteration,
              In N_leaves N_leaves_array /\ (iteration < n_iter)%nat
              /\ cmd = Subtrees.call CLUSTER ++ Subtrees.arguments N_leaves iteration)
  /\ (NoDup N_leaves_array -> NoDup (Subtrees.run CLUSTER N_leaves_array n_iter)).
Proof.
  split; [apply subtrees_run_length|]. split; [|apply subtrees_run_NoDup].
  rewrite subtrees_run_eq.
  intro cmd. rewrite in_flat_map. split.
  - intros [N [HN Hc]]. apply in_map_iff in Hc. destruct Hc as [i [<- Hi]].
    apply in_seq in Hi. exists N, i. repeat split; [exact HN|lia].
  - intros [N [i [HN [Hi ->]]]]. exists N. split; [exact HN|].
    apply in_map_iff. exists i. split; [reflexivity|]. apply in_seq. lia.
Qed.

(** The script as written makes 220 calls, all different. *)
Example subtrees_main_calls :
  length Subtrees.main = 220%nat /\ NoDup Subtrees.main.
Proof.
  split; [reflexivity|].
  apply subtrees_run_NoDup. repeat constructor; simpl; lia.
Qed.

Lemma nth_flat_map_const {A : Type} (f : A -> list (list string)) (l : list A)
    (c i j : nat) (d : A) :
  (forall x, length (f x) = c) ->
  (i < length l)%nat -> (j < c)%nat ->
  nth (i * c + j) (flat_map f l) [] = nth j (f (nth i l d)) [].
Proof.
  intros Hc. revert i. induction l as [|x l IH]; intros i Hi Hj; simpl in Hi; [lia|].
  simpl flat_map. destruct i as [|i].
  - simpl. apply app_nth1. now rewrite Hc.
  - replace (S i * c + j)%nat with (length (f x) + (i * c + j))%nat
      by (rewrite Hc; simpl; lia).
    rewrite app_nth2_plus. simpl nth. apply IH; lia.
Qed.

(** X20: the calls are made in the order of the loops: the call number
    [i * n_iter + j] (from 0) is the command line of the [i]-th leaf number
    and iteration [j]. *)
Theorem subtrees_call_order (CLUSTER : bool) (N_leaves_array : list nat)
    (n_iter i j : nat) :
  (i < length N_leaves_array)%nat ->
  (j < n_iter)%nat ->
  nth (i * n_iter + j) (Subtrees.run CLUSTER N_leaves_array n_iter) []
  = Subtrees.call CLUSTER ++ Subtrees.arguments (nth i N_leaves_array 0%nat) j.
Proof.
  intros Hi Hj. rewrite subtrees_run_eq.
  rewrite (nth_flat_map_const _ _ n_iter i j 0%nat)
    by (try (intro; now rewrite length_map, length_seq); assumption).
  rewrite (nth_indep _ [] (Subtrees.call CLUSTER
                           ++ Subtrees.arguments (nth i N_leaves_array 0%nat) 0))
    by now rewrite length_map, length_seq.
  rewrite (map_nth (fun iteration => Subtrees.call CLUSTER
                      ++ Subtrees.arguments (nth i N_leaves_array 0%nat) iteration)).
  now rewrite seq_nth.
Qed.

Lemma subtrees_call_order_witness :
  nth (1 * 20 + 1) (Subtrees.run true [20; 50; 100]%nat 20) []
  = Subtrees.call true ++ Subtrees.arguments (nth 1 [20; 50; 100]%nat 0%nat) 1.
Proof.
  apply (subtrees_call_order true [20; 50; 100]%nat 20 1 1); simpl; lia.
Defined.

(** ** With and without the cluster *)

(** The words that [CLUSTER] puts before the script. *)
Lemma subtrees_call_cluster :
  Subtrees.call true
  = ["qsub"; "-cwd"; "-b"; "y"; "-l"; "h_rt=23:59:0"; "-l"; "h_vmem=50G"]%string
    ++ Subtrees.call false.
Proof. reflexivity. Qed.

Lemma missing_dates_call_cluster :
  MissingDates.call true
  = ["qsub"; "-cwd"; "-b"; "y"; "-l"; "h_rt=1:59:0"; "-l"; "h_vmem=3G"]%string
    ++ MissingDates.call false.
Proof. reflexivity. Qed.

(** The calls of the missing-dates script, loop by loop: the loop over
    [point] repeats one command line. *)
Lemma missing_dates_run_eq (float_str : R -> string) (CLUSTER : bool)
    (nseqs : list nat) (fracs : list R) (Npoints : nat) :
  MissingDates.run float_str CLUSTER nseqs fracs Npoints
  = flat_map (fun nseq =>
                flat_map (fun frac =>
                            repeat (MissingDates.call CLUSTER
                                    ++ MissingDates.arguments float_str nseq frac)
                                   Npoints)
                         fracs)
             nseqs.
Proof.
  unfold MissingDates.run.
  assert (forall nseq frac done,
             fold_left (fun done (_ : nat) =>
                          done ++ [MissingDates.call CLUSTER
                                   ++ MissingDates.arguments float_str nseq frac])
                       (seq 0 Npoints) done
             = done ++ repeat (MissingDates.call CLUSTER
                               ++ MissingDates.arguments float_str nseq frac) Npoints) as Hpoint.
  { intros nseq frac done.
    rewrite (calls_inner (fun _ : nat => MissingDates.call CLUSTER
                            ++ MissingDates.arguments float_str nseq frac)).
    f_equal. generalize 0%nat. induction Npoints as [|n IH]; intro s; simpl;
      [reflexivity|now rewrite IH]. }
  rewrite (fold_left_ext _
             (fun done nseq =>
                done ++ flat_map (fun frac =>
                                    repeat (MissingDates.call CLUSTER
                                            ++ MissingDates.arguments float_str nseq frac)
                                           Npoints) fracs)).
  - exact (calls_outer _ nseqs []).
  - intros done nseq.
    rewrite (fold_left_ext _
               (fun done frac =>
                  done ++ repeat (MissingDates.call CLUSTER
                                  ++ MissingDates.arguments float_str nseq frac) Npoints))
      by (intros; apply Hpoint).
    apply (calls_outer (fun frac => repeat _ Npoints)).
Qed.

(** X21: the missing-dates script makes
    [len(nseqs) * len(dates_knonwn_fraction) * Npoints] calls, and the loop
    variable [point] is in none of them: the [Npoints] calls of one pair
    [(nseq, frac)] are one and the same command line, made [Npoints] times
    in a row. *)
Theorem missing_dates_calls_repeat (float_str : R -> string) (CLUSTER : bool)
    (nseqs : list nat) (fracs : list R) (Npoints : nat) :
  length (MissingDates.run float_str CLUSTER nseqs fracs Npoints)
  = (length nseqs * (length fracs * Npoints))%nat
  /\ MissingDates.run float_str CLUSTER nseqs fracs Npoints
     = flat_map (fun nseq =>
                   flat_map (fun frac =>
                               repeat (MissingDates.call CLUSTER
                                       ++ MissingDates.arguments float_str nseq frac)
                                      Npoints)
                            fracs)
                nseqs.
Proof.
  split; [|apply missing_dates_run_eq].
  rewrite missing_dates_run_eq.
  apply flat_map_constant_length. intros nseq _.
  apply flat_map_constant_length. intros frac _. apply repeat_length.
Qed.

Lemma map_of_flat_map {A B C : Type} (g : B -> C) (f : A -> list B) (l : list A) :
  map g (flat_map f l) = flat_map (fun x => map g (f x)) l.
Proof.
  induction l as [|x l IH]; simpl; [reflexivity|]. now rewrite map_app, IH.
Qed.

(** X22: [CLUSTER] changes nothing but the front of each command line: the
    calls on the cluster are the local calls, in the same order, each with
    the eight [qsub] words before it; so for both scripts. *)
Theorem cluster_only_prefixes (float_str : R -> string)
    (N_leaves_array nseqs : list nat) (n_iter Npoints : nat) (fracs : list R) :
  Subtrees.run true N_leaves_array n_iter
  = map (app ["qsub"; "-cwd"; "-b"; "y"; "-l"; "h_rt=23:59:0"; "-l"; "h_vmem=50G"]%string)
        (Subtrees.run false N_leaves_array n_iter)
  /\ MissingDates.run float_str true nseqs fracs Npoints
     = map (app ["qsub"; "-cwd"; "-b"; "y"; "-l"; "h_rt=1:59:0"; "-l"; "h_vmem=3G"]%string)
           (MissingDates.run float_str false nseqs fracs Npoints).
Proof.
  split.
  - rewrite !subtrees_run_eq, subtrees_call_cluster, map_of_flat_map.
    apply flat_map_ext. intro N. rewrite map_map.
    apply map_ext. intro i. now rewrite app_assoc.
  - rewrite !missing_dates_run_eq, missing_dates_call_cluster, map_of_flat_map.
    apply flat_map_ext. intro n. rewrite map_of_flat_map.
    apply flat_map_ext. intro f. rewrite map_repeat. now rewrite app_assoc.
Qed.

(** ** File names of the missing-dates script *)

Lemma length_append (a b : string) :
  String.length (a ++ b) = (String.length a + String.length b)%nat.
Proof. induction a as [|x a IH]; simpl; [reflexivity|now rewrite IH]. Qed.

Lemma append_inv_tail (a b c : string) : (a ++ c = b ++ c)%string -> a = b.
Proof.
  revert b. induction a as [|x a IH]; intros b H.
  - destruct b as [|y b]; [reflexivity|]. exfalso.
    assert (String.length c = String.length (String y b ++ c)) as L
      by (rewrite <- H; reflexivity).
    rewrite length_append in L. simpl in L. lia.
  - destruct b as [|y b].
    + exfalso.
      assert (String.length (String x a ++ c) = String.length c) as L
        by (rewrite H; reflexivity).
      rewrite length_append in L. simpl in L. lia.
    + simpl in H. inversion H; subst. f_equal. now apply IH.
Qed.

Lemma append_inv_head (p a b : string) : (p ++ a = p ++ b)%string -> a = b.
Proof.
  induction p as [|x p IH]; simpl; intro H; [exact H|].
  inversion H. now apply IH.
Qed.

Lemma format_inj (fmt prefix suffix : string) (n n' : nat) :
  (forall arg, format fmt arg = prefix ++ arg ++ suffix)%string ->
  format fmt (str n) = format fmt (str n') -> n = n'.
Proof.
  intros Hf H. rewrite !Hf in H.
  apply append_inv_head, append_inv_tail in H. now apply str_inj.
Qed.

Lemma alnfile_format (arg : string) :
  (format MissingDates.alnfile_fmt arg
   = "./flu_H3N2/missing_dates/subtrees/./H3N2_HA_2011_2013_" ++ arg ++ "seqs.fasta")%string.
Proof. reflexivity. Qed.

Lemma treefile_format (arg : string) :
  (format MissingDates.treefile_fmt arg
   = "./flu_H3N2/missing_dates/subtrees/./H3N2_HA_2011_2013_" ++ arg ++ "seqs.nwk")%string.
Proof. reflexivity. Qed.

Lemma resfile_format (arg : string) :
  (format MissingDates.resfile_fmt arg
   = "./flu_H3N2/missing_dates/./H3N2_HA_2011_2013_" ++ arg ++ "seqs_res.csv")%string.
Proof. reflexivity. Qed.

Lemma resfile_dates_format (arg : string) :
  (format MissingDates.resfile_dates_fmt arg
   = "./flu_H3N2/missing_dates/./H3N2_HA_2011_2013_" ++ arg ++ "seqs_dates_res.csv")%string.
Proof. reflexivity. Qed.

(** X23: the four file names that the missing-dates script builds for a
    number of sequences are the templates with the number in place of the
    field, and two different numbers never give the same file. *)
Theorem missing_dates_files (nseq nseq' : nat) :
  (format MissingDates.alnfile_fmt (str nseq)
   = "./flu_H3N2/missing_dates/subtrees/./H3N2_HA_2011_2013_" ++ str nseq ++ "seqs.fasta"
   /\ format MissingDates.treefile_fmt (str nseq)
      = "./flu_H3N2/missing_dates/subtrees/./H3N2_HA_2011_2013_" ++ str nseq ++ "seqs.nwk"
   /\ format MissingDates.resfile_fmt (str nseq)
      = "./flu_H3N2/missing_dates/./H3N2_HA_2011_2013_" ++ str nseq ++ "seqs_res.csv"
   /\ format MissingDates.resfile_dates_fmt (str nseq)
      = "./flu_H3N2/missing_dates/./H3N2_HA_2011_2013_" ++ str nseq
        ++ "seqs_dates_res.csv")%string
  /\ (format MissingDates.alnfile_fmt (str nseq)
      = format MissingDates.alnfile_fmt (str nseq') -> nseq = nseq')
  /\ (format MissingDates.treefile_fmt (str nseq)
      = format MissingDates.treefile_fmt (str nseq') -> nseq = nseq')
  /\ (format MissingDates.resfile_fmt (str nseq)
      = format MissingDates.resfile_fmt (str nseq') -> nseq = nseq')
  /\ (format MissingDates.resfile_dates_fmt (str nseq)
      = format MissingDates.resfile_dates_fmt (str nseq') -> nseq = nseq').
Proof.
  split; [|split; [|split; [|split]]].
  - split; [apply alnfile_format|]. split; [apply treefile_format|].
    split; [apply resfile_format|apply resfile_dates_format].
  - apply (format_inj _ _ _ _ _ alnfile_format).
  - apply (format_inj _ _ _ _ _ treefile_format).
  - apply (format_inj _ _ _ _ _ resfile_format).
  - apply (format_inj _ _ _ _ _ resfile_dates_format).
Qed.
